(** * Telegram media downloader: ledger, filter, batch orchestrator, link scanner

    A shallow embedding of [src/downloader.py] and [src/link_extractor.py].

    Conventions of the embedding.
    - A Python [str] is a [string]; a character stands for the code point of
      the same number, so the texts covered are those whose code points lie
      below 256.  On that range [str.lower] and the [re.IGNORECASE] character
      tests below coincide with Python's.
    - A Python object that is "truthy or None" ([message.photo],
      [message.document], ...) is an [option].
    - A [set] is a [gset], the [link_types] dict a [gmap].
    - A function that may raise returns a [result]; [try/except] is a match
      on it.
    - The file system, the clock, the log, the progress display and the
      network are explicit state or explicit parameters. *)

From Stdlib Require Import ZArith Ascii String DecimalString List Bool Lia.
From Stdlib Require DecimalPos DecimalZ.
From Stdlib Require Import Sorted.
From stdpp Require Import base option list gmap sets strings.

Local Open Scope string_scope.
Local Open Scope list_scope.
Set Warnings "-register-all,-clear-no-such-hyp".

(** ** Python primitives *)

Module Py.

(** Exceptions that the modelled code can meet. All derive from
    [Exception]. *)
Inductive exn : Type :=
| OSError
| JSONDecodeError
| AttributeError
| TypeError
| ValueError
| MarkupError
| TransferError.

Inductive result (A : Type) : Type :=
| Return (a : A)
| Raise (e : exn).
Arguments Return {A} a.
Arguments Raise {A} e.

Definition bind {A B} (r : result A) (k : A -> result B) : result B :=
  match r with
  | Return a => k a
  | Raise e => Raise e
  end.

(** [str.lower] on one code point below 256: the ASCII capitals and the
    Latin-1 capitals (U+00C0..U+00DE except the multiplication sign). *)
Definition lower_char (c : ascii) : ascii :=
  let n := N_of_ascii c in
  if ((65 <=? n) && (n <=? 90))%N then ascii_of_N (n + 32)
  else if ((192 <=? n) && (n <=? 222) && negb (n =? 215))%N
       then ascii_of_N (n + 32)
  else c.

Fixpoint lower (s : string) : string :=
  match s with
  | EmptyString => EmptyString
  | String c s' => String (lower_char c) (lower s')
  end.

(** [s.startswith(p)] *)
Definition startswith (s p : string) : bool := String.prefix p s.

(** [str(n)] for an [int], as an f-string renders it. *)
Definition str_of_int (n : Z) : string := NilZero.string_of_int (Z.to_int n).

(** [l[i:j]] for [0 <= i <= j]. *)
Definition slice {A} (i j : nat) (l : list A) : list A :=
  take (j - i) (drop i l).

End Py.

Import Py.

Notation "'try!' x := r 'in' k" := (Py.bind r (fun x => k))
  (at level 10, x name, r at level 100, k at level 200).

(** ** The part of Telethon's message objects that the code reads *)

Module Telethon.

(** The value of a name attribute: a [str], or some other object (whose
    default string form would start with an angle bracket). *)
Inductive name_value : Type :=
| NameStr (s : string)
| NameObject.

Inductive DocumentAttribute : Type :=
| DocumentAttributeFilename (file_name : name_value)
| DocumentAttributeOther.

Record Document : Type := mkDocument {
  doc_id : Z;
  mime_type : option string;
  attributes : list DocumentAttribute;
  doc_size : option Z
}.

Record Photo : Type := mkPhoto { photo_id : Z }.

(** [message.file]: only its [name] is read. *)
Record File : Type := mkFile { name : option name_value }.

(** A message entity; [url] is [None] for the classes that have no such
    attribute. [is_url_entity] tells [MessageEntityTextUrl] and
    [MessageEntityUrl] from the other classes. *)
Record MessageEntity : Type := mkEntity {
  is_url_entity : bool;
  ent_offset : Z;                   (* [entity.offset] *)
  ent_length : Z;                   (* [entity.length] *)
  url : option string
}.

Inductive Button : Type :=
| KeyboardButtonUrl (url : string)
| KeyboardButtonOther.

Record ButtonRow : Type := mkRow { buttons : list Button }.

(** [rows] is [None] for a markup without that attribute. *)
Record ReplyMarkup : Type := mkMarkup { rows : option (list ButtonRow) }.

Record Message : Type := mkMessage {
  id : Z;
  chat_id : option Z;
  photo : option Photo;
  video : option Document;
  document : option Document;
  file : option File;
  message : option string;          (* the text body *)
  caption : option string;
  entities : option (list MessageEntity);
  reply_markup : option ReplyMarkup
}.

End Telethon.

Import Telethon.

(** ** Filtering by media type: [filter_messages_by_type] *)

Module Filter.

(** [x == "literal"] where [x] is [None] or a [str]. *)
Definition opt_str_eqb (x : option string) (lit : string) : bool :=
  match x with
  | Some s => String.eqb s lit
  | None => false
  end.

(** [message.document and message.document.mime_type == mime] *)
Definition document_has_mime (message : Message) (mime : string) : bool :=
  match document message with
  | Some d => opt_str_eqb (mime_type d) mime
  | None => false
  end.

(** One turn of the loop body: the [if/elif] chain decides whether the
    message is appended. *)
Definition keeps (media_type : string) (message : Message) : bool :=
  if String.eqb (lower media_type) "images" && bool_decide (is_Some (photo message)) then true
  else if String.eqb (lower media_type) "videos" && bool_decide (is_Some (video message)) then true
  else if String.eqb (lower media_type) "pdfs" && document_has_mime message "application/pdf" then true
  else if String.eqb (lower media_type) "zips" && document_has_mime message "application/zip" then true
  else if String.eqb (lower media_type) "documents" && bool_decide (is_Some (document message)) then true
  else false.

(** The loop [for message in messages: ... filtered.append(message)],
    with the accumulator explicit. *)
Fixpoint filter_loop (media_type : string) (messages filtered : list Message)
  : list Message :=
  match messages with
  | [] => filtered
  | message :: rest =>
      filter_loop media_type rest
        (if keeps media_type message then filtered ++ [message] else filtered)
  end.

(** [TelegramDownloader.filter_messages_by_type] (the method) and the
    module-level [filter_messages_by_type] read the same attributes, the
    second through [getattr] with default [None]; on [Message] the two are
    the same function. *)
Definition filter_messages_by_type (messages : list Message) (media_type : string)
  : list Message :=
  if String.eqb (lower media_type) "all" then messages
  else filter_loop media_type messages [].

(** The selectors the command line offers. *)
Definition selectors : list string :=
  ["images"; "videos"; "pdfs"; "zips"; "documents"; "all"].

(** Specification side of the [pdfs] claim: the message carries a document
    whose MIME type is exactly [application/pdf]. *)
Definition is_pdf (message : Message) : Prop :=
  exists d, document message = Some d /\ mime_type d = Some "application/pdf".

#[global] Instance is_pdf_dec message : Decision (is_pdf message).
Proof.
  unfold is_pdf. destruct (document message) as [d|].
  - destruct (decide (mime_type d = Some "application/pdf")) as [H|H].
    + left. eauto.
    + right. intros (d' & [= <-] & ?). done.
  - right. intros (d' & [=] & ?).
Defined.

End Filter.

(** ** The persisted ledger: [DownloadState] *)

Module DownloadState.

(** A JSON document as [json.load] returns it. Numbers are restricted to
    integers. An object keeps its pairs in file order; [json.load] lets a
    later pair with the same key win. *)
Inductive json : Type :=
| JNull
| JBool (b : bool)
| JInt (n : Z)
| JStr (s : string)
| JArr (items : list json)
| JObj (pairs : list (string * json)).

(** A hashable Python value, as an element of [downloaded_files]. [True]
    and [False] are the integers 1 and 0 in a set. *)
Inductive atom : Type :=
| AStr (s : string)
| AInt (n : Z)
| ANone.

#[global] Instance atom_eq_dec : EqDecision atom.
Proof. solve_decision. Defined.

#[global] Instance atom_countable : Countable atom.
Proof.
  refine (inj_countable'
    (fun a => match a with
              | AStr s => inl s
              | AInt n => inr (Some n)
              | ANone => inr None
              end)
    (fun x => match x with
              | inl s => AStr s
              | inr (Some n) => AInt n
              | inr None => ANone
              end) _).
  intros []; reflexivity.
Defined.

(** What is found at the path [state_file]. *)
Inductive file_state : Type :=
| Absent                  (* [os.path.exists] is false *)
| Unreadable              (* [open(.., 'r')] raises *)
| Malformed               (* [json.load] raises *)
| Json (data : json).

Inductive log_record : Type :=
| InfoLoaded (n : nat)              (* "Loaded {n} previously downloaded files" *)
| WarningCouldNotLoad (e : exn)     (* "Could not load download state: {e}" *)
| ErrorCouldNotSave (e : exn)       (* "Could not save download state: {e}" *)
| InfoSkipping (file_name : name_value)
| InfoDownloaded (file_name : string)
| ErrorFailedToDownload (file_name : string) (e : exn)
| ErrorTaskFailed (e : exn).

(** Where a write of the state file fails when it does. [open(.., 'w')]
    truncates the file before anything is written, so a failure after it
    leaves a file that is empty, ends in the middle of the document (no
    proper prefix of the document parses) or, when only the close raised,
    holds the whole document. *)
Inductive write_fault : Type :=
| OpenRaises                      (* [open(.., 'w')] raises *)
| DumpRaises (complete : bool).   (* [json.dump] or the close raises;
                                     [complete]: the whole document had
                                     reached the file *)

(** The object and the part of the world it touches. *)
Record state : Type := mkState {
  downloaded_files : gset atom;   (* [self.downloaded_files] *)
  on_disk : file_state;           (* the file at [self.state_file] *)
  writable : bool;                (* whether writing the state file succeeds *)
  fault : write_fault;            (* where it fails when it does not *)
  clock : nat;                    (* what [datetime.now()] reads next *)
  log : list log_record           (* what [logger] has received *)
}.

Definition set_downloaded (s : state) (d : gset atom) : state :=
  mkState d (on_disk s) (writable s) (fault s) (clock s) (log s).
Definition set_on_disk (s : state) (f : file_state) : state :=
  mkState (downloaded_files s) f (writable s) (fault s) (clock s) (log s).
Definition tick (s : state) : state :=
  mkState (downloaded_files s) (on_disk s) (writable s) (fault s) (S (clock s))
    (log s).
Definition logger (s : state) (r : log_record) : state :=
  mkState (downloaded_files s) (on_disk s) (writable s) (fault s) (clock s)
    (log s ++ [r]).

(** [data.get(key, default)]: only a dict has [get]. *)
Fixpoint assoc_last (key : string) (pairs : list (string * json)) : option json :=
  match pairs with
  | [] => None
  | (k, v) :: rest =>
      match assoc_last key rest with
      | Some v' => Some v'
      | None => if String.eqb k key then Some v else None
      end
  end.

Definition dict_get (data : json) (key : string) (fallback : json) : result json :=
  match data with
  | JObj pairs => Return (default fallback (assoc_last key pairs))
  | _ => Raise AttributeError
  end.

(** [hash(v)] succeeds on scalars and raises on lists and dicts. *)
Definition hashable (v : json) : result atom :=
  match v with
  | JNull => Return ANone
  | JBool b => Return (AInt (if b then 1 else 0))
  | JInt n => Return (AInt n)
  | JStr s => Return (AStr s)
  | JArr _ | JObj _ => Raise TypeError
  end.

Fixpoint set_of_items (items : list json) : result (gset atom) :=
  match items with
  | [] => Return ∅
  | v :: rest =>
      try! a := hashable v in
      try! d := set_of_items rest in
      Return ({[a]} ∪ d)
  end.

Fixpoint chars (s : string) : list atom :=
  match s with
  | EmptyString => []
  | String c s' => AStr (String c EmptyString) :: chars s'
  end.

(** [set(v)]: the elements of a list, the characters of a string, the keys
    of a dict; other scalars are not iterable. *)
Definition py_set (v : json) : result (gset atom) :=
  match v with
  | JArr items => set_of_items items
  | JStr s => Return (list_to_set (chars s))
  | JObj pairs => Return (list_to_set (AStr <$> pairs.*1))
  | JNull | JBool _ | JInt _ => Raise TypeError
  end.

(** [set(data.get('downloaded_files', []))] *)
Definition ids_of (data : json) : result (gset atom) :=
  try! v := dict_get data "downloaded_files" (JArr []) in
  py_set v.

(** The body of the [try] in [load_state]. Nothing is assigned before the
    last statement that can raise. *)
Definition load_state_try (s : state) : result state :=
  match on_disk s with
  | Absent => Return s
  | Unreadable => Raise OSError
  | Malformed => Raise JSONDecodeError
  | Json data =>
      try! d := ids_of data in
      Return (logger (set_downloaded s d) (InfoLoaded (size d)))
  end.

Definition load_state (s : state) : result state :=
  match load_state_try s with
  | Return s' => Return s'
  | Raise e => Return (logger s (WarningCouldNotLoad e))
  end.

(** [DownloadState(state_file)]: [__init__] in the surroundings [env]
    (file, permissions, clock, log). *)
Definition init (env : state) : result state :=
  load_state (set_downloaded env ∅).

Definition is_downloaded (s : state) (file_id : string) : bool :=
  bool_decide (AStr file_id ∈ downloaded_files s).

Definition to_json (a : atom) : json :=
  match a with
  | AStr s => JStr s
  | AInt n => JInt n
  | ANone => JNull
  end.

(** [with open(self.state_file, 'w') as f: json.dump(data, f, indent=2)]:
    the file is truncated as soon as it is open. *)
Definition write_json (s : state) (data : json) : result state :=
  if writable s then Return (set_on_disk s (Json data))
  else Raise OSError.

(** What the file holds when that statement has raised. *)
Definition after_failed_write (s : state) (data : json) : file_state :=
  match fault s with
  | OpenRaises => on_disk s
  | DumpRaises complete => if complete then Json data else Malformed
  end.

Section Clock.

(** [datetime.now().isoformat()] when the clock reads [t]. *)
Variable isoformat : nat -> string.

(** The dict that [save_state] dumps. [list(set)] enumerates the set in
    an order of the implementation's choosing; here in that of
    [elements]. *)
Definition state_data (d : gset atom) (t : nat) : json :=
  JObj [("downloaded_files", JArr (to_json <$> elements d));
        ("last_updated", JStr (isoformat t))].

Definition save_state (s : state) : result state :=
  let data := state_data (downloaded_files s) (clock s) in
  let s1 := tick s in
  match write_json s1 data with
  | Return s2 => Return s2
  | Raise e =>
      Return (logger (set_on_disk s1 (after_failed_write s1 data))
                (ErrorCouldNotSave e))
  end.

Definition mark_downloaded (s : state) (file_id : string) : result state :=
  save_state (set_downloaded s ({[AStr file_id]} ∪ downloaded_files s)).

(** A session: any sequence of the two ledger operations. *)
Inductive op : Type :=
| IsDownloaded (file_id : string)
| MarkDownloaded (file_id : string).

Definition step (s : state) (o : op) : result state :=
  match o with
  | IsDownloaded file_id => let _ := is_downloaded s file_id in Return s
  | MarkDownloaded file_id => mark_downloaded s file_id
  end.

Fixpoint run (ops : list op) (s : state) : result state :=
  match ops with
  | [] => Return s
  | o :: rest => try! s' := step s o in run rest s'
  end.

End Clock.

End DownloadState.

(** ** The batch download orchestrator: [TelegramDownloader] *)

Module Downloader.

Import DownloadState.

(** [get_file_id]: the ledger key of a message. *)
Definition get_file_id (message : Message) : string :=
  match video message, document message, photo message with
  | Some v, _, _ =>
      "video_" +:+ str_of_int (id message) +:+ "_" +:+ str_of_int (doc_id v)
  | None, Some d, _ =>
      "doc_" +:+ str_of_int (id message) +:+ "_" +:+ str_of_int (doc_id d)
  | None, None, Some p =>
      "photo_" +:+ str_of_int (id message) +:+ "_" +:+ str_of_int (photo_id p)
  | None, None, None =>
      "media_" +:+ str_of_int (id message)
  end.

(** The loop over [document.attributes] in [get_file_name]: the first
    [DocumentAttributeFilename] decides. *)
Fixpoint first_filename (attrs : list DocumentAttribute) : option name_value :=
  match attrs with
  | [] => None
  | DocumentAttributeFilename n :: _ => Some n
  | DocumentAttributeOther :: rest => first_filename rest
  end.

Definition get_file_name (message : Message) : name_value :=
  match document message with
  | Some d =>
      match first_filename (attributes d) with
      | Some n => n
      | None => NameStr ("document_" +:+ str_of_int (id message))
      end
  | None =>
      match video message with
      | Some _ => NameStr ("video_" +:+ str_of_int (id message) +:+ ".mp4")
      | None =>
          match photo message with
          | Some _ => NameStr ("photo_" +:+ str_of_int (id message) +:+ ".jpg")
          | None => NameStr ("media_" +:+ str_of_int (id message))
          end
      end
  end.

(** [not isinstance(file_name, str) or
     file_name.startswith("<telethon.tl.custom")] *)
Definition is_placeholder (file_name : name_value) : bool :=
  match file_name with
  | NameStr s => startswith s "<telethon.tl.custom"
  | NameObject => true
  end.

(** Truth value of [getattr(getattr(message, 'file', None), 'name', None)]. *)
Definition truthy (n : option name_value) : bool :=
  match n with
  | None => false
  | Some (NameStr s) => negb (String.eqb s "")
  | Some NameObject => true
  end.

(** [getattr(getattr(message, 'file', None), 'name', None)
     or f"media_{message.id}"] *)
Definition fallback_name (message : Message) : name_value :=
  let n := file message ≫= name in
  if truthy n then default NameObject n
  else NameStr ("media_" +:+ str_of_int (id message)).

(** The name under which [download_file] stores the media: lines 190 and
    199-201. *)
Definition destination_name (message : Message) : name_value :=
  let file_name := get_file_name message in
  if is_placeholder file_name then fallback_name message else file_name.

(** On a message that Telethon built, [message.file.name] is the
    [file_name] of the first [DocumentAttributeFilename] of the message's
    document, and [None] without a document or without such an attribute:
    the attribute that [get_file_name] reads. *)
Definition telethon_built (message : Message) : bool :=
  match file message ≫= name, document message ≫= first_filename ∘ attributes with
  | None, None => true
  | Some NameObject, Some NameObject => true
  | Some (NameStr s), Some (NameStr s') => String.eqb s s'
  | _, _ => false
  end.

(** How [message.download_media] ends: it returns after writing the file,
    or it raises, having left a partial file or not. *)
Inductive transfer : Type :=
| Completed
| Broken (partial : bool).

(** What [asyncio.gather(.., return_exceptions=True)] collects for one
    task. *)
Inductive outcome : Type :=
| RTrue
| RFalse
| RException (e : exn).

#[global] Instance exn_eq_dec : EqDecision exn.
Proof. solve_decision. Defined.

#[global] Instance outcome_eq_dec : EqDecision outcome.
Proof. solve_decision. Defined.

(** What the display shows for a task: the f-strings of lines 206, 219 and
    225. The file name enters the text as it is, after an opening colour
    tag, and the text column reads the whole as console markup. *)
Inductive description : Type :=
| Downloading (file_name : string)   (* "[cyan]Downloading {file_name}" *)
| Downloaded (file_name : string)    (* "[green].. Downloaded {file_name}" *)
| Failed (file_name : string).       (* "[red].. Failed {file_name}" *)

Record world : Type := mkWorld {
  download_state : DownloadState.state;  (* [self.download_state] *)
  files : gset string;                   (* the paths that exist *)
  requests : list string;                (* the [download_media] calls made *)
  display : list description             (* the tasks of the [Progress] in
                                            use, by task id *)
}.

Definition with_state (w : world) (s : DownloadState.state) : world :=
  mkWorld s (files w) (requests w) (display w).
Definition with_files (w : world) (f : gset string) : world :=
  mkWorld (download_state w) f (requests w) (display w).
Definition request (w : world) (file_path : string) : world :=
  mkWorld (download_state w) (files w) (requests w ++ [file_path]) (display w).
Definition with_display (w : world) (d : list description) : world :=
  mkWorld (download_state w) (files w) (requests w) d.
Definition logging (w : world) (r : log_record) : world :=
  with_state w (logger (download_state w) r).

(** The ids recorded in memory. *)
Definition ledger (w : world) : gset atom :=
  downloaded_files (download_state w).

(** Two worlds that differ at most in what was logged. *)
Definition same_but_log (w w' : world) : Prop :=
  files w' = files w
  /\ requests w' = requests w
  /\ ledger w' = ledger w
  /\ on_disk (download_state w') = on_disk (download_state w)
  /\ writable (download_state w') = writable (download_state w)
  /\ clock (download_state w') = clock (download_state w)
  /\ display w' = display w.

(** A task suspended at [await message.download_media(..)]. *)
Record pending : Type := mkPending {
  p_message : Message;
  p_file_id : string;
  p_file_name : string;
  p_file_path : string;
  p_task : nat                (* the [TaskID] that [add_task] returned *)
}.

Inductive task : Type :=
| Done (r : outcome)
| Awaiting (p : pending).

Record stats : Type := mkStats {
  success : nat;
  failed : nat;
  skipped : nat
}.

(** [sum(stats.values())], the "Total Processed" row of the result table. *)
Definition processed (st : stats) : nat := success st + failed st + skipped st.

Section Env.

Variable isoformat : nat -> string.

(** [str(folder_path / file_name)] *)
Variable joinpath : string -> string -> string.

(** Whether rich can read a description as console markup. It raises
    [MarkupError] when it cannot, for instance on a closing tag that
    matches no open tag. *)
Variable renders : description -> bool.

(** Whether a path is a directory: [exists()] holds of it and [unlink()]
    raises on it. The download folder is one once [download_batch] has
    created it. *)
Variable is_dir : string -> bool.

(** [folder_path / file_name] raises [TypeError] on a name that is not a
    [str]. *)
Definition file_path_of (folder_path : string) (file_name : name_value)
  : result (string * string) :=
  match file_name with
  | NameStr s => Return (s, joinpath folder_path s)
  | NameObject => Raise TypeError
  end.

(** A refresh of the live display draws the table of all its tasks, and
    with it the description of each. *)
Definition refresh (w : world) : result unit :=
  if forallb renders (display w) then Return tt else Raise MarkupError.

(** [progress.add_task(description, ..)]: the task is entered in the table
    under the next id, then the display is refreshed. When the refresh
    raises, the task stays in the table. *)
Definition add_task (w : world) (d : description) : result nat * world :=
  let w1 := with_display w (display w ++ [d]) in
  (try! _ := refresh w1 in Return (length (display w)), w1).

(** [progress.update(task, description=..)]: no refresh. *)
Definition update (w : world) (task : nat) (d : description) : world :=
  with_display w (<[task := d]> (display w)).

(** [download_file] up to its only [await]: lines 189-216. [add_task] is
    called outside the [try]. The size passed as [total] is a number and
    plays no part. *)
Definition download_file_start (message : Message) (folder_path : string)
    (w : world) : task * world :=
  let file_id := get_file_id message in
  let file_name := get_file_name message in
  if is_downloaded (download_state w) file_id then
    (Done RTrue, logging w (InfoSkipping file_name))
  else
    let file_name :=
      if is_placeholder file_name then fallback_name message else file_name in
    match file_path_of folder_path file_name with
    | Raise e => (Done (RException e), w)
    | Return (file_name, file_path) =>
        match add_task w (Downloading file_name) with
        | (Raise e, w1) => (Done (RException e), w1)
        | (Return task, w1) =>
            (Awaiting (mkPending message file_id file_name file_path task),
             request w1 file_path)
        end
    end.

(** A transfer writes at the destination path, unless that is a directory
    (the file then goes inside it). *)
Definition written (w : world) (file_path : string) : world :=
  if is_dir file_path then w
  else with_files w ({[file_path]} ∪ files w).

(** The [except Exception] branch: lines 224-230. A directory exists, and
    [unlink] raises on it: the exception leaves the handler and the
    task. *)
Definition download_file_except (p : pending) (e : exn) (w : world)
  : outcome * world :=
  let w1 := update w (p_task p) (Failed (p_file_name p)) in
  let w2 := logging w1 (ErrorFailedToDownload (p_file_name p) e) in
  if is_dir (p_file_path p) then (RException OSError, w2)
  else if bool_decide (p_file_path p ∈ files w2)
       then (RFalse, with_files w2 (files w2 ∖ {[p_file_path p]}))
       else (RFalse, w2).

(** [download_file] from the moment the transfer ends: lines 218-230. *)
Definition download_file_finish (t : transfer) (p : pending) (w : world)
  : outcome * world :=
  match t with
  | Completed =>
      let w1 := written w (p_file_path p) in
      match mark_downloaded isoformat (download_state w1) (p_file_id p) with
      | Return s =>
          let w2 := update (with_state w1 s) (p_task p)
                      (Downloaded (p_file_name p)) in
          (RTrue, logging w2 (InfoDownloaded (p_file_name p)))
      | Raise e => download_file_except p e w1
      end
  | Broken partial =>
      let w1 := if partial then written w (p_file_path p) else w in
      download_file_except p TransferError w1
  end.

(** [asyncio.gather] with [return_exceptions=True] on one group. Every
    transfer suspends its task, so the tasks of a group first run, in
    list order, up to their [await]; the transfers then end, here in list
    order. The results keep the order of the tasks. *)
Fixpoint start_all (batch : list Message) (folder_path : string) (w : world)
  : list task * world :=
  match batch with
  | [] => ([], w)
  | message :: rest =>
      let '(t, w1) := download_file_start message folder_path w in
      let '(ts, w2) := start_all rest folder_path w1 in
      (t :: ts, w2)
  end.

Fixpoint finish_all (net : Message -> transfer) (tasks : list task) (w : world)
  : list outcome * world :=
  match tasks with
  | [] => ([], w)
  | Done r :: rest =>
      let '(rs, w1) := finish_all net rest w in
      (r :: rs, w1)
  | Awaiting p :: rest =>
      let '(r, w1) := download_file_finish (net (p_message p)) p w in
      let '(rs, w2) := finish_all net rest w1 in
      (r :: rs, w2)
  end.

Definition gather (net : Message -> transfer) (batch : list Message)
    (folder_path : string) (w : world) : list outcome * world :=
  let '(tasks, w1) := start_all batch folder_path w in
  finish_all net tasks w1.

(** The counting loop: lines 299-306. *)
Definition count (acc : stats * world) (r : outcome) : stats * world :=
  let '(st, w) := acc in
  match r with
  | RException e =>
      (mkStats (success st) (failed st + 1) (skipped st),
       logging w (ErrorTaskFailed e))
  | RTrue => (mkStats (success st + 1) (failed st) (skipped st), w)
  | RFalse => (mkStats (success st) (failed st) (skipped st + 1), w)
  end.

(** Each description that the display can be asked to show for a message
    renders. *)
Definition displayable (m : Message) : bool :=
  match destination_name m with
  | NameStr s =>
      renders (Downloading s) && renders (Downloaded s) && renders (Failed s)
  | NameObject => true
  end.

(** The destination path of a message is not a directory. *)
Definition stored_as_file (folder_path : string) (m : Message) : bool :=
  match destination_name m with
  | NameStr s => negb (is_dir (joinpath folder_path s))
  | NameObject => true
  end.

(** Specification side of the isolation claim: what the task of one message
    returns when the display renders and the destination is no directory,
    as a function of that message, of how its own transfer ends, and of the
    ledger [d] at the time its group starts. *)
Definition outcome_of (net : Message -> transfer) (d : gset atom) (m : Message)
  : outcome :=
  if bool_decide (AStr (get_file_id m) ∈ d) then RTrue
  else
    match destination_name m with
    | NameObject => RException TypeError
    | NameStr _ =>
        match net m with
        | Completed => RTrue
        | Broken _ => RFalse
        end
    end.

(** How many messages of a list end in [r]. *)
Definition tally (net : Message -> transfer) (d : gset atom) (r : outcome)
    (messages : list Message) : nat :=
  List.length (filter (fun m => outcome_of net d m = r) messages).

(** [range(0, stop, step)] for [stop >= 0]. *)
Definition py_range (stop step : Z) : result (list Z) :=
  if (step =? 0)%Z then Raise ValueError
  else if (step <? 0)%Z then Return []
  else Return ((fun k => k * step)%Z <$> seqZ 0 ((stop + step - 1) `div` step)).

(** The body of [for i in range(0, len(messages), batch_size)]: lines
    287-306. *)
Definition batch_step (net : Message -> transfer) (messages : list Message)
    (folder_path : string) (batch_size : Z) (acc : stats * world) (i : Z)
  : stats * world :=
  let batch := slice (Z.to_nat i) (Z.to_nat (i + batch_size)) messages in
  let '(results, w1) := gather net batch folder_path (snd acc) in
  foldl count (fst acc, w1) results.

Definition batch_loop (net : Message -> transfer) (messages : list Message)
    (folder_path : string) (batch_size : Z) (starts : list Z)
    (acc : stats * world) : stats * world :=
  foldl (batch_step net messages folder_path batch_size) acc starts.

(** [download_batch]. The destination directory is taken to be creatable.
    The [with Progress(..)] block starts a display with no task; leaving
    the block refreshes the display a last time, which raises when a
    description does not render, and the display is gone afterwards. An
    exception of [range] leaves the block while the display is still
    empty. *)
Definition download_batch (net : Message -> transfer) (messages : list Message)
    (folder_path : string) (batch_size : Z) (w : world)
  : result (stats * world) :=
  let w0 := with_display w [] in
  try! starts := py_range (Z.of_nat (length messages)) batch_size in
  let '(st, w1) :=
    batch_loop net messages folder_path batch_size starts (mkStats 0 0 0, w0) in
  try! _ := refresh w1 in
  Return (st, with_display w1 (display w)).

End Env.

End Downloader.

(** ** Regular expressions, as far as [link_patterns] uses them *)

Module Regex.

Inductive class : Type :=
| Word          (* [a-zA-Z0-9_] *)
| WordDash      (* [a-zA-Z0-9_-] *)
| Digit.        (* \d *)

Definition between (lo hi : N) (c : ascii) : bool :=
  ((lo <=? N_of_ascii c) && (N_of_ascii c <=? hi))%N.

Definition is_digit (c : ascii) : bool := between 48 57 c.
Definition is_word (c : ascii) : bool :=
  between 97 122 c || between 65 90 c || is_digit c || Ascii.eqb c "_".

(** Membership under [re.IGNORECASE], for code points below 256. *)
Definition in_class (k : class) (c : ascii) : bool :=
  match k with
  | Word => is_word c
  | WordDash => is_word c || Ascii.eqb c "-"
  | Digit => is_digit c
  end.

(** A pattern is a sequence of items: a literal character, an optional
    literal character ([c?]), or a greedy bounded repetition of a class
    ([k{lo,hi}]; [k+] is [k{1,}]). *)
Inductive item : Type :=
| Lit (c : ascii)
| Opt (c : ascii)
| Rep (k : class) (lo : nat) (hi : option nat).

Definition pattern : Type := list item.

(** A literal under [re.IGNORECASE]. *)
Definition lit_match (c a : ascii) : bool :=
  Ascii.eqb (lower_char a) (lower_char c).

Definition room (hi : option nat) : bool :=
  match hi with
  | Some 0 => false
  | _ => true
  end.

(** Greedy repetition with backtracking: take one more character when
    that leads to a match of the rest, stop here otherwise. [lo] and [hi]
    count what is still required and still allowed. The result is the
    number of characters matched by the repetition and the rest. *)
Fixpoint rep_match (k : class) (lo : nat) (hi : option nat)
    (rest : string -> option nat) (s : string) : option nat :=
  let stop := if Nat.eqb lo 0 then rest s else None in
  match s with
  | String a s' =>
      if in_class k a && room hi then
        match rep_match k (pred lo) (pred <$> hi) rest s' with
        | Some n => Some (S n)
        | None => stop
        end
      else stop
  | EmptyString => stop
  end.

Definition lit_then (c : ascii) (rest : string -> option nat) (s : string)
  : option nat :=
  match s with
  | String a s' => if lit_match c a then S <$> rest s' else None
  | EmptyString => None
  end.

(** [pattern.match] at the start of [s]: the length of the match. *)
Fixpoint match_here (p : pattern) (s : string) : option nat :=
  match p with
  | [] => Some 0
  | Lit c :: p' => lit_then c (match_here p') s
  | Opt c :: p' =>
      match lit_then c (match_here p') s with
      | Some n => Some n
      | None => match_here p' s
      end
  | Rep k lo hi :: p' => rep_match k lo hi (match_here p') s
  end.

(** A match object: [group(0)] and [span()]. *)
Record rmatch : Type := mkMatch {
  group0 : string;
  span : nat * nat
}.

(** [re.finditer]: the matches from left to right, without overlap.
    [pos] is the index of the first character of [s] in the text, [skip]
    the number of characters of [s] that the previous match still covers. *)
Fixpoint scan (p : pattern) (s : string) (pos skip : nat) : list rmatch :=
  match skip with
  | S k =>
      match s with
      | String _ s' => scan p s' (S pos) k
      | EmptyString => []
      end
  | 0 =>
      match match_here p s with
      | Some n =>
          mkMatch (String.substring 0 n s) (pos, pos + n) ::
          match s with
          | String _ s' => scan p s' (S pos) (pred n)
          | EmptyString => []
          end
      | None =>
          match s with
          | String _ s' => scan p s' (S pos) 0
          | EmptyString => []
          end
      end
  end.

Definition finditer (p : pattern) (text : string) : list rmatch :=
  scan p text 0 0.

Fixpoint lits (s : string) : pattern :=
  match s with
  | EmptyString => []
  | String c s' => Lit c :: lits s'
  end.

End Regex.

(** ** The link scanner and aggregator: [TelegramLinkExtractor] *)

Module LinkExtractor.

Import Regex.

(** [self.link_patterns], in the order of the source. *)
Definition prefixed_pattern : pattern :=      (* https?://t\.me/[a-zA-Z0-9_]+ *)
  lits "http" ++ [Opt "s"%char] ++ lits "://t.me/" ++ [Rep Word 1 None].
Definition bare_pattern : pattern :=          (* t\.me/[a-zA-Z0-9_]+ *)
  lits "t.me/" ++ [Rep Word 1 None].
Definition handle_pattern : pattern :=        (* @([a-zA-Z0-9_]{5,32}) *)
  [Lit "@"%char; Rep Word 5 (Some 32)].
Definition joinchat_pattern : pattern :=      (* https?://t\.me/joinchat/[a-zA-Z0-9_-]+ *)
  lits "http" ++ [Opt "s"%char] ++ lits "://t.me/joinchat/" ++ [Rep WordDash 1 None].
Definition deep_link_pattern : pattern :=     (* https?://t\.me/c/\d+/\d+ *)
  lits "http" ++ [Opt "s"%char] ++ lits "://t.me/c/" ++
  [Rep Digit 1 None; Lit "/"%char; Rep Digit 1 None].

Definition link_patterns : list pattern :=
  [prefixed_pattern; bare_pattern; handle_pattern; joinchat_pattern;
   deep_link_pattern].

(** One collected record: the dict built at lines 39-46, 55-62, 72-79. *)
Record LinkRecord : Type := mkLink {
  link : string;
  message_id : Z;
  link_chat_id : option Z;          (* the key 'chat_id' *)
  context : string;
  position : option (Z * Z);
  timestamp : string
}.

(** The report: the counters of [extraction_info], the list [links] and
    the two entries of [statistics]. *)
Record Report : Type := mkReport {
  total_messages_processed : nat;
  total_links_found : nat;
  links : list LinkRecord;
  link_types : gmap string nat;
  unique_links : nat
}.

Definition nonempty (x : option string) : option string :=
  match x with
  | Some s => if String.eqb s "" then None else Some s
  | None => None
  end.

Section Clock.

Variable isoformat : nat -> string.

(** The functions below read the clock once per record; they take the
    clock and return it advanced. *)
Definition span_Z (sp : nat * nat) : Z * Z :=
  (Z.of_nat (fst sp), Z.of_nat (snd sp)).

Definition append_match (message_id : Z) (chat_id : option Z) (context : string)
    (acc : list LinkRecord * nat) (m : rmatch) : list LinkRecord * nat :=
  let '(links, t) := acc in
  (links ++ [mkLink (group0 m) message_id chat_id context
               (Some (span_Z (span m))) (isoformat t)], S t).

Definition extract_links_from_text (text : string) (message_id : Z)
    (chat_id : option Z) (context : string) (t : nat)
  : list LinkRecord * nat :=
  if String.eqb text "" then ([], t)
  else
    foldl (fun acc p =>
             foldl (append_match message_id chat_id context) acc (finditer p text))
      ([], t) link_patterns.

Definition append_entity (message : Message)
    (acc : list LinkRecord * nat) (entity : MessageEntity)
  : list LinkRecord * nat :=
  let '(links, t) := acc in
  if is_url_entity entity then
    match nonempty (url entity) with
    | Some u =>
        (links ++ [mkLink u (id message) (chat_id message) "entity"
                     (Some (ent_offset entity,
                            (ent_offset entity + ent_length entity)%Z))
                     (isoformat t)], S t)
    | None => acc
    end
  else acc.

Definition extract_links_from_entities (message : Message) (t : nat)
  : list LinkRecord * nat :=
  match entities message with
  | Some (e :: es) => foldl (append_entity message) ([], t) (e :: es)
  | _ => ([], t)
  end.

Definition append_button (message : Message)
    (acc : list LinkRecord * nat) (button : Button) : list LinkRecord * nat :=
  let '(links, t) := acc in
  match button with
  | KeyboardButtonUrl u =>
      (links ++ [mkLink u (id message) (chat_id message) "button" None
                   (isoformat t)], S t)
  | KeyboardButtonOther => acc
  end.

Definition extract_links_from_reply_markup (message : Message) (t : nat)
  : list LinkRecord * nat :=
  match reply_markup message ≫= rows with
  | Some rs =>
      foldl (fun acc row => foldl (append_button message) acc (buttons row))
        ([], t) rs
  | None => ([], t)
  end.

(** [process_message]; the debug line of the logger is left out. *)
Definition process_message (msg : Message) (t : nat) : list LinkRecord * nat :=
  let '(l1, t1) :=
    match nonempty (message msg) with
    | Some text => extract_links_from_text text (id msg) (chat_id msg) "text" t
    | None => ([], t)
    end in
  let '(l2, t2) :=
    match nonempty (caption msg) with
    | Some text => extract_links_from_text text (id msg) (chat_id msg) "caption" t1
    | None => ([], t1)
    end in
  let '(l3, t3) := extract_links_from_entities msg t2 in
  let '(l4, t4) := extract_links_from_reply_markup msg t3 in
  (l1 ++ l2 ++ l3 ++ l4, t4).

(** [link_types[link_type] = link_types.get(link_type, 0) + 1] *)
Definition bump (types : gmap string nat) (l : LinkRecord) : gmap string nat :=
  <[context l := default 0 (types !! context l) + 1]> types.

(** The accumulators of the loop at lines 175-186. *)
Record acc : Type := mkAcc {
  message_count : nat;
  total_links : nat;
  acc_links : list LinkRecord;     (* [results['links']] *)
  acc_types : gmap string nat;     (* [results['statistics']['link_types']] *)
  acc_clock : nat
}.

Definition visit (a : acc) (msg : Message) : acc :=
  let '(message_links, t) := process_message msg (acc_clock a) in
  mkAcc (message_count a + 1)
        (total_links a + List.length message_links)
        (acc_links a ++ message_links)
        (foldl bump (acc_types a) message_links)
        t.

(** [extract_links_from_channel] from line 160 to line 189, on the
    messages that [client.iter_messages(entity, limit=limit)] yields. The
    clock is read once for ['extraction_date'] before the loop; the
    progress lines of the logger are left out. *)
Definition extract_links_from_channel (messages : list Message) (t : nat)
  : Report :=
  let a := foldl visit (mkAcc 0 0 [] ∅ (S t)) messages in
  mkReport (message_count a) (total_links a) (acc_links a) (acc_types a)
    (size (list_to_set (link <$> acc_links a) : gset string)).

End Clock.

(** Specification side of the report claim: the number of distinct link
    strings, by exact equality of strings. *)
Definition distinct_links (ls : list LinkRecord) : nat :=
  List.length (remove_dups (link <$> ls)).

(** The sum of the per-context counts. *)
Definition sum_counts (types : gmap string nat) : nat :=
  map_fold (fun _ n total => n + total) 0 types.

End LinkExtractor.

(** ** Concrete inputs used by the examples below *)

Module Samples.

(** A rendering of the clock and a path join, to run the code on. *)
Definition isoformat (t : nat) : string := "T" +:+ str_of_int (Z.of_nat t).

(** Joining with "" or "." gives the folder itself. *)
Definition joinpath (folder_path file_name : string) : string :=
  if String.eqb file_name "" || String.eqb file_name "." then folder_path
  else folder_path +:+ "/" +:+ file_name.

Fixpoint contains (p s : string) : bool :=
  String.prefix p s
  || match s with
     | EmptyString => false
     | String _ s' => contains p s'
     end.

Definition name_of (d : Downloader.description) : string :=
  match d with
  | Downloader.Downloading n | Downloader.Downloaded n | Downloader.Failed n => n
  end.

(** A display for the names used below, none of which opens a tag: a
    description renders unless its file name holds the closing tag
    "[/b]". *)
Definition renders (d : Downloader.description) : bool :=
  negb (contains "[/b]" (name_of d)).

(** The only directory among the paths used below. *)
Definition is_dir (file_path : string) : bool := String.eqb file_path "downloads".

Definition photo_message (i : Z) : Message :=
  mkMessage i None (Some (mkPhoto (100 + i))) None None None None None None None.

Definition document_message (i : Z) (mime : string) (attrs : list DocumentAttribute)
    (f : option File) : Message :=
  mkMessage i None None None (Some (mkDocument (200 + i) (Some mime) attrs None))
    f None None None None.

(** A document whose filename attribute is the default string form of a
    Telethon object; [message.file.name] is [name]. *)
Definition placeholder : string := "<telethon.tl.custom.file.File object at 0x7f>".
Definition placeholder_message (name : option name_value) : Message :=
  document_message 7 "application/pdf"
    [DocumentAttributeFilename (NameStr placeholder)] (Some (mkFile name)).

(** A session that starts with no ledger file in a directory that cannot be
    written. *)
Definition read_only_state : DownloadState.state :=
  DownloadState.mkState ∅ DownloadState.Absent false DownloadState.OpenRaises 0 [].

Definition fresh_state : DownloadState.state :=
  DownloadState.mkState ∅ DownloadState.Absent true DownloadState.OpenRaises 0 [].

Definition fresh_world : Downloader.world :=
  Downloader.mkWorld fresh_state ∅ [] [].

(** Three photo messages, and a network on which the transfer of the
    second one breaks after a partial file has been written. *)
Definition three_photos : list Message :=
  [photo_message 1; photo_message 2; photo_message 3].

Definition second_breaks (m : Message) : Downloader.transfer :=
  if (id m =? 2)%Z then Downloader.Broken true else Downloader.Completed.

Definition all_complete (m : Message) : Downloader.transfer :=
  Downloader.Completed.

(** [download_batch] on the sample clock and paths, into "downloads". *)
Definition batch_run (net : Message -> Downloader.transfer) (messages : list Message)
    (batch_size : Z) (w : Downloader.world)
  : result (Downloader.stats * Downloader.world) :=
  Downloader.download_batch isoformat joinpath renders is_dir net messages
    "downloads" batch_size w.

(** A message that only carries a text body, and one that only carries a
    button with a URL. *)
Definition text_message (i : Z) (text : string) : Message :=
  mkMessage i (Some 42%Z) None None None None (Some text) None None None.

Definition button_message (i : Z) (u : string) : Message :=
  mkMessage i (Some 42%Z) None None None None None None None
    (Some (mkMarkup (Some [mkRow [KeyboardButtonUrl u]]))).

(** The world that a first run leaves when every transfer completes. *)
Definition after_first_run : Downloader.world :=
  match batch_run all_complete three_photos 2 fresh_world with
  | Return (_, w) => w
  | Raise _ => fresh_world
  end.

End Samples.

(** ** Further concrete inputs *)

Module MoreSamples.

(** A session in a writable directory whose ledger holds one id. *)
Definition one_id_state : DownloadState.state :=
  DownloadState.mkState {[DownloadState.AStr "photo_1_101"]}
    DownloadState.Absent true DownloadState.OpenRaises 3 [].

(** A ledger file as [save_state] lays it out, holding two ids, one of
    them twice. *)
Definition ledger_file : list (string * DownloadState.json) :=
  [("downloaded_files",
    DownloadState.JArr
      (DownloadState.JStr <$> ["photo_1_101"; "doc_2_202"; "photo_1_101"]));
   ("last_updated", DownloadState.JStr "2024-01-01T00:00:00")].

(** A document named "a[/b].pdf": rich reads "[/b]" as a closing tag,
    and no tag "b" is open. [message.file.name] is that same name. *)
Definition markup_document (i : Z) : Message :=
  Samples.document_message i "application/pdf"
    [DocumentAttributeFilename (NameStr "a[/b].pdf")]
    (Some (mkFile (Some (NameStr "a[/b].pdf")))).

(** A document whose filename attribute is the empty string: its
    destination path is the download folder. *)
Definition nameless_document (i : Z) : Message :=
  Samples.document_message i "application/pdf"
    [DocumentAttributeFilename (NameStr "")]
    (Some (mkFile (Some (NameStr "")))).

End MoreSamples.

(** ** Specification side of the further properties *)

Module Spec.

Import DownloadState Downloader LinkExtractor.

(** The message carries a document whose MIME type is exactly [mime]. *)
Definition has_mime (mime : string) (message : Message) : Prop :=
  exists d, document message = Some d /\ mime_type d = Some mime.

#[global] Instance has_mime_dec mime message : Decision (has_mime mime message).
Proof.
  unfold has_mime. destruct (document message) as [d|].
  - destruct (decide (mime_type d = Some mime)) as [H|H].
    + left. eauto.
    + right. intros (d' & [= <-] & ?). done.
  - right. intros (d' & [=] & ?).
Defined.

(** What a file id is meant to encode: the kind of payload that names it,
    the id of the message and the id of that payload. *)
Inductive kind : Type := Video | Doc | PhotoKind | Media.

Definition payload_key (message : Message) : kind * Z * option Z :=
  match video message, document message, photo message with
  | Some v, _, _ => (Video, id message, Some (doc_id v))
  | None, Some d, _ => (Doc, id message, Some (doc_id d))
  | None, None, Some p => (PhotoKind, id message, Some (photo_id p))
  | None, None, None => (Media, id message, None)
  end.

(** The transfer that a run asks for on behalf of one message, given the
    ledger [d] at its start: none for an id in the ledger or a name that is
    not a string, otherwise the destination path. *)
Definition request_of (joinpath : string -> string -> string)
    (folder_path : string) (d : gset atom) (m : Message) : option string :=
  if bool_decide (AStr (get_file_id m) ∈ d) then None
  else
    match destination_name m with
    | NameStr s => Some (joinpath folder_path s)
    | NameObject => None
    end.

(** The four contexts a record can come from. *)
Definition contexts : list string := ["text"; "caption"; "entity"; "button"].

(** How many records of a list carry the context [c]. *)
Definition count_context (c : string) (ls : list LinkRecord) : nat :=
  List.length (filter (fun l => context l = c) ls).

(** The link and position of the record that an entity gives rise to. *)
Definition entity_link (e : MessageEntity) : option (string * option (Z * Z)) :=
  if is_url_entity e then
    match url e with
    | Some u =>
        if String.eqb u "" then None
        else Some (u, Some (ent_offset e, (ent_offset e + ent_length e)%Z))
    | None => None
    end
  else None.

Definition button_link (b : Button) : option string :=
  match b with
  | KeyboardButtonUrl u => Some u
  | KeyboardButtonOther => None
  end.

End Spec.

(** * Properties *)

Import Filter DownloadState Downloader Regex LinkExtractor.

(** ** The filter *)

Section FilterFacts.

Lemma filter_loop_app (media_type : string) (messages filtered : list Message) :
  filter_loop media_type messages filtered
  = filtered ++ filter (fun m => Is_true (keeps media_type m)) messages.
Proof.
  revert filtered.
  induction messages as [|m rest IH]; intros filtered; simpl.
  - by rewrite app_nil_r.
  - rewrite IH. destruct (keeps media_type m) eqn:Hk.
    + rewrite filter_cons_True by (simpl; rewrite Hk; exact I).
      by rewrite <- app_assoc.
    + rewrite filter_cons_False by (simpl; rewrite Hk; exact (fun H => H)). done.
Qed.

Lemma keeps_pdfs (m : Message) : Is_true (keeps "pdfs" m) <-> is_pdf m.
Proof.
  unfold keeps, is_pdf, document_has_mime, opt_str_eqb. simpl.
  destruct (document m) as [d|]; simpl.
  - destruct (mime_type d) as [mt|] eqn:Hm; simpl.
    + destruct (String.eqb_spec mt "application/pdf") as [->|Hne]; simpl.
      * split; [eauto | done].
      * split; [done | intros (d' & [= <-] & Hd); congruence].
    + split; [done | intros (d' & [= <-] & Hd); congruence].
  - split; [done | intros (d' & [=] & _)].
Qed.

(** C3. For every message list, the selector "pdfs" returns exactly the
    messages that carry a document whose MIME type is exactly
    "application/pdf", in their original order, and the selector "all"
    returns the list unchanged. *)
Theorem filter_pdfs_exact_and_all_identity (messages : list Message) :
  filter_messages_by_type messages "pdfs" = filter is_pdf messages
  /\ filter_messages_by_type messages "all" = messages.
Proof.
  split; [|reflexivity].
  unfold filter_messages_by_type. simpl.
  rewrite filter_loop_app. simpl.
  apply list_filter_iff. intros m. apply keeps_pdfs.
Qed.

Lemma keeps_unknown (media_type : string) (m : Message) :
  lower media_type ∉ selectors -> keeps media_type m = false.
Proof.
  intros Hout. unfold keeps.
  repeat match goal with
  | |- context [String.eqb (lower media_type) ?lit] =>
      destruct (String.eqb_spec (lower media_type) lit) as [Heq|_];
      [exfalso; apply Hout; rewrite Heq; unfold selectors; set_solver | simpl]
  end.
  reflexivity.
Qed.

(** C9, as amended. For every message list and every selector whose
    lower-case form is none of images, videos, pdfs, zips, documents, all,
    the filter returns the empty list. *)
Theorem filter_unknown_selector_empty (messages : list Message) (media_type : string) :
  lower media_type ∉ selectors ->
  filter_messages_by_type messages media_type = [].
Proof.
  intros Hout. unfold filter_messages_by_type.
  destruct (String.eqb_spec (lower media_type) "all") as [Heq|_].
  - exfalso. apply Hout. rewrite Heq. unfold selectors. set_solver.
  - rewrite filter_loop_app. simpl.
    induction messages as [|m rest IH]; [done|].
    rewrite filter_cons_False; [exact IH|].
    simpl. rewrite (keeps_unknown _ _ Hout). exact (fun H => H).
Qed.

End FilterFacts.

Section FilterExamples.

(** C9, counterexample. "ALL" is none of the six selectors, yet the filter
    lower-cases it and returns the whole list. *)
Lemma filter_upper_case_all_returns_input :
  ("ALL" ∉ selectors)
  /\ filter_messages_by_type [Samples.photo_message 1] "ALL" = [Samples.photo_message 1].
Proof.
  split; [|reflexivity].
  unfold selectors. rewrite !elem_of_cons, elem_of_nil. intros H.
  repeat (destruct H as [H|H]; [discriminate H|]). exact H.
Qed.

Lemma filter_unknown_selector_empty_witness :
  (lower "movies" ∉ selectors)
  /\ filter_messages_by_type [Samples.photo_message 1] "movies" = [].
Proof.
  assert (Hout : lower "movies" ∉ selectors).
  { unfold selectors. simpl. rewrite !elem_of_cons, elem_of_nil. intros H.
    repeat (destruct H as [H|H]; [discriminate H|]). exact H. }
  split; [exact Hout|].
  exact (filter_unknown_selector_empty [Samples.photo_message 1] "movies" Hout).
Defined.

End FilterExamples.

(** ** The ledger *)

Section LedgerFacts.

Variable isoformat : nat -> string.

Lemma load_state_returns (s : state) : exists s', load_state s = Return s'.
Proof. unfold load_state. destruct (load_state_try s); eauto. Qed.

(** C4. [load_state] never raises, and neither does constructing the
    ledger. With no file the set is empty and nothing is logged; with an
    unreadable or malformed file, or one whose content makes the conversion
    raise, a warning is logged and the set is empty; otherwise the set is
    the one read. *)
Theorem load_never_raises (env : state) :
  (exists s, load_state env = Return s)
  /\ exists s,
    init env = Return s
    /\ on_disk s = on_disk env
    /\ match on_disk env with
       | Absent => downloaded_files s = ∅ /\ log s = log env
       | Unreadable =>
           downloaded_files s = ∅
           /\ log s = log env ++ [WarningCouldNotLoad OSError]
       | Malformed =>
           downloaded_files s = ∅
           /\ log s = log env ++ [WarningCouldNotLoad JSONDecodeError]
       | Json data =>
           match ids_of data with
           | Raise e =>
               downloaded_files s = ∅
               /\ log s = log env ++ [WarningCouldNotLoad e]
           | Return d =>
               downloaded_files s = d
               /\ log s = log env ++ [InfoLoaded (size d)]
           end
       end.
Proof.
  split; [apply load_state_returns|].
  unfold init, load_state, load_state_try. simpl.
  destruct (on_disk env) as [| | |data] eqn:Hf; simpl.
  - eexists; repeat split; simpl; auto.
  - eexists; repeat split; simpl; auto.
  - eexists; repeat split; simpl; auto.
  - destruct (ids_of data) as [d|e]; simpl;
      eexists; repeat split; simpl; auto.
Qed.

Lemma save_state_returns (s : state) :
  exists s', save_state isoformat s = Return s'
    /\ downloaded_files s' = downloaded_files s
    /\ clock s' = S (clock s)
    /\ writable s' = writable s
    /\ if writable s
       then on_disk s' = Json (state_data isoformat (downloaded_files s) (clock s))
            /\ log s' = log s
       else on_disk s'
            = after_failed_write s
                (state_data isoformat (downloaded_files s) (clock s))
            /\ log s' = log s ++ [ErrorCouldNotSave OSError].
Proof.
  unfold save_state, write_json, after_failed_write. simpl.
  destruct (writable s) eqn:Hw; eexists; repeat split; simpl; auto.
  all: by rewrite ?Hw.
Qed.

Lemma mark_downloaded_returns (s : state) (file_id : string) :
  exists s', mark_downloaded isoformat s file_id = Return s'
    /\ downloaded_files s' = {[AStr file_id]} ∪ downloaded_files s
    /\ clock s' = S (clock s)
    /\ writable s' = writable s
    /\ if writable s
       then on_disk s' = Json (state_data isoformat (downloaded_files s') (clock s))
            /\ log s' = log s
       else on_disk s'
            = after_failed_write s
                (state_data isoformat (downloaded_files s') (clock s))
            /\ log s' = log s ++ [ErrorCouldNotSave OSError].
Proof.
  unfold mark_downloaded.
  destruct (save_state_returns
              (set_downloaded s ({[AStr file_id]} ∪ downloaded_files s)))
    as (s' & Hs & Hd & Hc & Hw & Hdisk).
  exists s'. simpl in *. repeat split; auto.
  destruct (writable s); rewrite Hd; exact Hdisk.
Qed.

Lemma set_of_items_atoms (l : list atom) :
  set_of_items (to_json <$> l) = Return (list_to_set l).
Proof.
  induction l as [|a rest IH]; [done|].
  rewrite fmap_cons. cbn [set_of_items]. rewrite IH.
  destruct a; reflexivity.
Qed.

(** What [save_state] writes is read back by [load_state] as the same
    set. *)
Lemma saved_state_loads_back (d : gset atom) (t : nat) :
  ids_of (state_data isoformat d t) = Return d.
Proof.
  unfold ids_of, state_data. simpl.
  by rewrite set_of_items_atoms, list_to_set_elements_L.
Qed.

Lemma run_grows (ops : list op) (s : state) :
  exists s', run isoformat ops s = Return s'
    /\ downloaded_files s ⊆ downloaded_files s'.
Proof.
  revert s. induction ops as [|o rest IH]; intros s; simpl.
  - exists s. split; [reflexivity | set_solver].
  - destruct o as [file_id|file_id]; simpl.
    + apply IH.
    + destruct (mark_downloaded_returns s file_id) as (s1 & Hs & Hd & _).
      rewrite Hs. simpl. destruct (IH s1) as (s' & Hrun & Hsub).
      exists s'. split; [exact Hrun|].
      intros x Hx. apply Hsub. rewrite Hd. apply elem_of_union_r, Hx.
Qed.

(** C5, as amended. Every sequence of ledger operations runs to the end and
    leaves a set that contains the old one. [mark_downloaded] leaves the old
    set plus the id, reads the clock, and tries to write the full set with
    that timestamp. When the write succeeds the state file holds that
    document. When it raises, an error is logged and nothing is raised to
    the caller; the file is as it was when opening it raised, and has lost
    what it held when the write raised after the file was opened: it then
    holds no document that parses, or the new document when only the close
    raised. *)
Theorem ledger_grows_and_mark_saves (ops : list op) (s : state) (file_id : string) :
  (exists s', run isoformat ops s = Return s'
     /\ downloaded_files s ⊆ downloaded_files s')
  /\ exists s1, mark_downloaded isoformat s file_id = Return s1
       /\ downloaded_files s1 = {[AStr file_id]} ∪ downloaded_files s
       /\ clock s1 = S (clock s)
       /\ if writable s
          then on_disk s1
               = Json (state_data isoformat (downloaded_files s1) (clock s))
               /\ log s1 = log s
          else log s1 = log s ++ [ErrorCouldNotSave OSError]
               /\ match fault s with
                  | OpenRaises => on_disk s1 = on_disk s
                  | DumpRaises false => on_disk s1 = Malformed
                  | DumpRaises true =>
                      on_disk s1
                      = Json (state_data isoformat (downloaded_files s1) (clock s))
                  end.
Proof.
  split; [apply run_grows|].
  destruct (mark_downloaded_returns s file_id) as (s1 & Hs & Hd & Hc & _ & Hdisk).
  exists s1. repeat (split; [assumption|]).
  destruct (writable s); [exact Hdisk|].
  destruct Hdisk as [Hdisk Hlog]. split; [exact Hlog|].
  unfold after_failed_write in Hdisk.
  destruct (fault s) as [|[|]]; exact Hdisk.
Qed.

End LedgerFacts.

(** C5, counterexample. In a directory that cannot be written,
    [mark_downloaded] adds the id to the set in memory and persists nothing:
    no state file exists afterwards. *)
Lemma mark_downloaded_read_only_persists_nothing :
  exists s1,
    mark_downloaded Samples.isoformat Samples.read_only_state "photo_1_101" = Return s1
    /\ downloaded_files s1 = {[AStr "photo_1_101"]} ∪ ∅
    /\ on_disk s1 = Absent
    /\ log s1 = [ErrorCouldNotSave OSError].
Proof. eexists. repeat split. Qed.

(** ** File names *)

Section FileNameFacts.

Variable joinpath : string -> string -> string.
Variable renders : description -> bool.

Lemma telethon_built_same_name (m : Message) :
  telethon_built m = true ->
  file m ≫= name = document m ≫= first_filename ∘ attributes.
Proof.
  unfold telethon_built.
  destruct (file m ≫= name) as [[s|]|],
    (document m ≫= first_filename ∘ attributes) as [[s'|]|];
    try discriminate; try reflexivity.
  intros Heq. apply String.eqb_eq in Heq. by subst.
Qed.

(** C8, what the code does. [get_file_name] returns the first filename
    attribute of the document when there is one, and otherwise
    "document_{id}" for a document, "video_{id}.mp4" for a video,
    "photo_{id}.jpg" for a photo. The guard of [download_file] replaces a
    name that is not a string or starts with "<telethon.tl.custom" by
    [message.file.name] when that is truthy. On a message built by Telethon
    that is the attribute the derived name came from, so the guard changes
    nothing: the destination name is the derived name, placeholder or not,
    and a placeholder string that is not yet in the ledger goes to the
    display and to the transfer as the name of the file. *)
Theorem placeholder_guard_changes_nothing (m : Message) (folder_path : string)
    (w : world) :
  match document m with
  | Some d =>
      match first_filename (attributes d) with
      | Some n => get_file_name m = n
      | None => get_file_name m = NameStr ("document_" +:+ str_of_int (id m))
      end
  | None =>
      match video m, photo m with
      | Some _, _ =>
          get_file_name m = NameStr ("video_" +:+ str_of_int (id m) +:+ ".mp4")
      | None, Some _ =>
          get_file_name m = NameStr ("photo_" +:+ str_of_int (id m) +:+ ".jpg")
      | None, None =>
          get_file_name m = NameStr ("media_" +:+ str_of_int (id m))
      end
  end
  /\ (telethon_built m = true -> destination_name m = get_file_name m)
  /\ (forall s,
        telethon_built m = true ->
        get_file_name m = NameStr s ->
        is_downloaded (download_state w) (get_file_id m) = false ->
        forallb renders (display w ++ [Downloading s]) = true ->
        download_file_start joinpath renders m folder_path w
        = (Awaiting (mkPending m (get_file_id m) s (joinpath folder_path s)
                       (length (display w))),
           request (with_display w (display w ++ [Downloading s]))
             (joinpath folder_path s))).
Proof.
  assert (Hname :
    match document m with
    | Some d =>
        match first_filename (attributes d) with
        | Some n => get_file_name m = n
        | None => get_file_name m = NameStr ("document_" +:+ str_of_int (id m))
        end
    | None =>
        match video m, photo m with
        | Some _, _ =>
            get_file_name m = NameStr ("video_" +:+ str_of_int (id m) +:+ ".mp4")
        | None, Some _ =>
            get_file_name m = NameStr ("photo_" +:+ str_of_int (id m) +:+ ".jpg")
        | None, None =>
            get_file_name m = NameStr ("media_" +:+ str_of_int (id m))
        end
    end).
  { unfold get_file_name. destruct (document m) as [d|].
    - destruct (first_filename (attributes d)); reflexivity.
    - destruct (video m), (photo m); reflexivity. }
  assert (Hguard : telethon_built m = true -> destination_name m = get_file_name m).
  { intros Hbuilt. apply telethon_built_same_name in Hbuilt.
    unfold destination_name, fallback_name.
    destruct (is_placeholder (get_file_name m)) eqn:Hp; [|reflexivity].
    rewrite Hbuilt. revert Hp Hname.
    destruct (document m) as [d|]; simpl.
    - destruct (first_filename (attributes d)) as [n|]; intros Hp Hn.
      + rewrite Hn in *. destruct n as [s|]; simpl in *; [|reflexivity].
        destruct s; [discriminate | reflexivity].
      + rewrite Hn in Hp. discriminate.
    - destruct (video m), (photo m); intros Hp Hn; rewrite Hn in Hp;
        discriminate. }
  split; [exact Hname|]. split; [exact Hguard|].
  intros s Hbuilt Hs Hnew Hshow.
  specialize (Hguard Hbuilt). unfold destination_name in Hguard.
  unfold download_file_start. rewrite Hnew, Hguard, Hs. simpl.
  unfold add_task, refresh. simpl. by rewrite Hshow.
Qed.

End FileNameFacts.

(** C8 at a document whose filename attribute, and therefore
    [message.file.name], is "<telethon.tl.custom.file.File object at 0x7f>":
    the guard sees a placeholder and leaves it, and the file is stored under
    that name. *)
Lemma placeholder_guard_changes_nothing_witness :
  telethon_built (Samples.placeholder_message (Some (NameStr Samples.placeholder)))
  = true
  /\ is_placeholder
       (get_file_name (Samples.placeholder_message (Some (NameStr Samples.placeholder))))
     = true
  /\ destination_name
       (Samples.placeholder_message (Some (NameStr Samples.placeholder)))
     = NameStr Samples.placeholder
  /\ (download_file_start Samples.joinpath Samples.renders
        (Samples.placeholder_message (Some (NameStr Samples.placeholder)))
        "downloads" Samples.fresh_world).1
     = Awaiting
         (mkPending
            (Samples.placeholder_message (Some (NameStr Samples.placeholder)))
            "doc_7_207" Samples.placeholder
            "downloads/<telethon.tl.custom.file.File object at 0x7f>" 0).
Proof.
  destruct (placeholder_guard_changes_nothing Samples.joinpath Samples.renders
              (Samples.placeholder_message (Some (NameStr Samples.placeholder)))
              "downloads" Samples.fresh_world) as (_ & Hguard & Hstart).
  split; [reflexivity|]. split; [reflexivity|].
  split; [exact (Hguard eq_refl)|].
  by rewrite (Hstart Samples.placeholder eq_refl eq_refl eq_refl eq_refl).
Defined.

(** ** The batch orchestrator *)

Section BatchFacts.

Variable isoformat : nat -> string.
Variable joinpath : string -> string -> string.
Variable renders : description -> bool.
Variable is_dir : string -> bool.

Local Abbreviation download_file_start :=
  (Downloader.download_file_start joinpath renders).
Local Abbreviation download_file_finish :=
  (Downloader.download_file_finish isoformat is_dir).
Local Abbreviation start_all := (Downloader.start_all joinpath renders).
Local Abbreviation finish_all := (Downloader.finish_all isoformat is_dir).
Local Abbreviation gather :=
  (Downloader.gather isoformat joinpath renders is_dir).
Local Abbreviation batch_step :=
  (Downloader.batch_step isoformat joinpath renders is_dir).
Local Abbreviation batch_loop :=
  (Downloader.batch_loop isoformat joinpath renders is_dir).
Local Abbreviation download_batch :=
  (Downloader.download_batch isoformat joinpath renders is_dir).

(** *** Groups: [range] and slices *)

Lemma foldl_seq_invariant {A} (f : A -> nat -> A) (P : nat -> A -> Prop) (a : A) (n : nat) :
  P 0 a ->
  (forall k x, k < n -> P k x -> P (S k) (f x k)) ->
  P n (foldl f a (seq 0 n)).
Proof.
  induction n as [|n IH]; intros H0 Hstep; [exact H0|].
  rewrite seq_S, foldl_app. simpl.
  apply Hstep; [lia|]. apply IH; [exact H0|].
  intros k x Hk. apply Hstep. lia.
Qed.

Lemma py_range_positive (stop step : Z) :
  (0 < step)%Z ->
  py_range stop step
  = Return ((fun k : nat => Z.of_nat k * step)%Z
              <$> seq 0 (Z.to_nat ((stop + step - 1) `div` step))).
Proof.
  intros Hpos. unfold py_range.
  destruct (Z.eqb_spec step 0) as [->|_]; [lia|].
  destruct (Z.ltb_spec step 0) as [Hneg|_]; [lia|].
  f_equal. unfold seqZ. rewrite <- list_fmap_compose.
  apply list_fmap_ext. intros _ k _. simpl. f_equal. lia.
Qed.

Lemma groups_cover (len step : Z) :
  (0 <= len)%Z -> (0 < step)%Z ->
  Z.to_nat len <= Z.to_nat ((len + step - 1) `div` step) * Z.to_nat step.
Proof.
  intros Hlen Hstep.
  pose proof (Z.div_mod (len + step - 1) step ltac:(lia)) as Hdm.
  pose proof (Z.mod_pos_bound (len + step - 1) step Hstep) as Hmod.
  assert (0 <= (len + step - 1) `div` step)%Z as Hq
    by (apply Z.div_pos; lia).
  rewrite <- Z2Nat.inj_mul by lia.
  apply Z2Nat.inj_le; lia.
Qed.

Lemma length_slice {A} (i j : nat) (l : list A) :
  length (slice i j l) = Nat.min (j - i) (length l - i).
Proof. unfold slice. by rewrite length_take, length_drop. Qed.

Lemma length_group {A} (k : nat) (batch_size : Z) (l : list A) :
  (0 < batch_size)%Z ->
  length (slice (Z.to_nat (Z.of_nat k * batch_size))
            (Z.to_nat (Z.of_nat k * batch_size + batch_size)) l)
  = Nat.min (S k * Z.to_nat batch_size) (length l)
    - Nat.min (k * Z.to_nat batch_size) (length l).
Proof.
  intros Hpos. rewrite length_slice.
  rewrite Z2Nat.inj_add, Z2Nat.inj_mul, Nat2Z.id by lia.
  simpl. lia.
Qed.

Lemma elem_of_slice {A} (i j : nat) (l : list A) (x : A) :
  x ∈ slice i j l -> x ∈ l.
Proof.
  unfold slice. intros H.
  apply elem_of_take in H as (n & H & _).
  rewrite lookup_drop in H. by eapply list_elem_of_lookup_2.
Qed.

(** *** One group *)

Lemma length_start_all (batch : list Message) (folder_path : string) (w : world) :
  length (start_all batch folder_path w).1 = length batch.
Proof.
  revert w. induction batch as [|m rest IH]; intros w; simpl; [done|].
  destruct (download_file_start m folder_path w) as [t w1].
  specialize (IH w1).
  destruct (start_all rest folder_path w1) as [ts w2]. simpl in *. lia.
Qed.

Lemma length_finish_all (net : Message -> transfer) (tasks : list task) (w : world) :
  length (finish_all net tasks w).1 = length tasks.
Proof.
  revert w. induction tasks as [|t rest IH]; intros w; simpl; [done|].
  destruct t as [r|p].
  - specialize (IH w). destruct (finish_all net rest w). simpl in *. lia.
  - destruct (download_file_finish (net (p_message p)) p w) as [r w1].
    specialize (IH w1). destruct (finish_all net rest w1). simpl in *. lia.
Qed.

Lemma length_gather (net : Message -> transfer) (batch : list Message)
    (folder_path : string) (w : world) :
  length (gather net batch folder_path w).1 = length batch.
Proof.
  unfold Downloader.gather.
  pose proof (length_start_all batch folder_path w) as Hs.
  destruct (start_all batch folder_path w) as [tasks w1]. simpl in Hs.
  by rewrite length_finish_all.
Qed.

Lemma processed_count (rs : list outcome) (st : stats) (w : world) :
  processed (foldl count (st, w) rs).1 = processed st + length rs.
Proof.
  revert st w. induction rs as [|r rest IH]; intros st w; simpl; [lia|].
  destruct r; rewrite IH; unfold processed; simpl; lia.
Qed.

Lemma processed_batch_step (net : Message -> transfer) (messages : list Message)
    (folder_path : string) (batch_size : Z) (acc : stats * world) (i : Z) :
  processed (batch_step net messages folder_path batch_size acc i).1
  = processed acc.1
    + length (slice (Z.to_nat i) (Z.to_nat (i + batch_size)) messages).
Proof.
  unfold Downloader.batch_step.
  pose proof (length_gather net
    (slice (Z.to_nat i) (Z.to_nat (i + batch_size)) messages) folder_path acc.2) as Hg.
  destruct (gather net _ folder_path acc.2) as [results w1]. simpl in Hg.
  by rewrite processed_count, Hg.
Qed.

(** The groups cover the list: whatever the tasks do, the counting loop
    has counted every message once when the last group is done. *)
Lemma batch_loop_counts_every_item (net : Message -> transfer)
    (messages : list Message) (folder_path : string) (batch_size : Z) (w : world) :
  (0 < batch_size)%Z ->
  processed
    (batch_loop net messages folder_path batch_size
       ((fun k : nat => Z.of_nat k * batch_size)%Z
          <$> seq 0 (Z.to_nat ((Z.of_nat (length messages) + batch_size - 1)
                                 `div` batch_size)))
       (mkStats 0 0 0, w)).1
  = length messages.
Proof.
  intros Hpos. unfold Downloader.batch_loop. rewrite foldl_fmap.
  set (n := Z.to_nat ((Z.of_nat (length messages) + batch_size - 1) `div` batch_size)).
  set (f := fun (acc : stats * world) (k : nat) =>
              batch_step net messages folder_path batch_size acc
                (Z.of_nat k * batch_size)%Z).
  assert (Hinv : processed (foldl f (mkStats 0 0 0, w) (seq 0 n)).1
                 = Nat.min (n * Z.to_nat batch_size) (length messages)).
  { apply (foldl_seq_invariant f
             (fun k acc => processed acc.1
                           = Nat.min (k * Z.to_nat batch_size) (length messages))).
    - reflexivity.
    - intros k acc _ Hk. unfold f.
      rewrite processed_batch_step, Hk, length_group by exact Hpos.
      simpl. lia. }
  rewrite Hinv.
  pose proof (groups_cover (Z.of_nat (length messages)) batch_size
                ltac:(lia) Hpos) as Hcover.
  rewrite Nat2Z.id in Hcover. fold n in Hcover. lia.
Qed.

(** [download_batch] with a positive batch size: the loop, then the last
    refresh of the display. *)
Lemma download_batch_positive (net : Message -> transfer)
    (messages : list Message) (folder_path : string) (batch_size : Z) (w : world) :
  (0 < batch_size)%Z ->
  exists st w1,
    batch_loop net messages folder_path batch_size
      ((fun k : nat => Z.of_nat k * batch_size)%Z
         <$> seq 0 (Z.to_nat ((Z.of_nat (length messages) + batch_size - 1)
                                `div` batch_size)))
      (mkStats 0 0 0, with_display w [])
    = (st, w1)
    /\ processed st = length messages
    /\ download_batch net messages folder_path batch_size w
       = if forallb renders (display w1)
         then Return (st, with_display w1 (display w))
         else Raise MarkupError.
Proof.
  intros Hpos.
  pose proof (batch_loop_counts_every_item net messages folder_path batch_size
                (with_display w []) Hpos) as Hcount.
  unfold Downloader.download_batch.
  rewrite py_range_positive by exact Hpos. simpl.
  destruct (batch_loop net messages folder_path batch_size _ _) as [st w1].
  exists st, w1. split; [reflexivity|]. split; [exact Hcount|].
  unfold refresh. by destruct (forallb renders (display w1)).
Qed.

(** *** A run in which every id is already in the ledger *)

Lemma same_but_log_refl (w : world) : same_but_log w w.
Proof. by repeat split. Qed.

Lemma same_but_log_trans (w1 w2 w3 : world) :
  same_but_log w1 w2 -> same_but_log w2 w3 -> same_but_log w1 w3.
Proof.
  unfold same_but_log. intros (?&?&?&?&?&?&?) (?&?&?&?&?&?&?).
  repeat split; congruence.
Qed.

Lemma same_but_log_logging (w : world) (r : log_record) :
  same_but_log w (logging w r).
Proof. by repeat split. Qed.

Lemma start_hit (m : Message) (folder_path : string) (w : world) :
  AStr (get_file_id m) ∈ ledger w ->
  download_file_start m folder_path w
  = (Done RTrue, logging w (InfoSkipping (get_file_name m))).
Proof.
  intros Hin. unfold Downloader.download_file_start, is_downloaded.
  by rewrite bool_decide_eq_true_2.
Qed.

Lemma start_all_hits (batch : list Message) (folder_path : string) (w : world) :
  (forall m, m ∈ batch -> AStr (get_file_id m) ∈ ledger w) ->
  exists w1,
    start_all batch folder_path w = ((fun _ => Done RTrue) <$> batch, w1)
    /\ same_but_log w w1.
Proof.
  revert w. induction batch as [|m rest IH]; intros w Hall; simpl.
  - exists w. split; [reflexivity | apply same_but_log_refl].
  - rewrite start_hit by (apply Hall; left).
    set (w0 := logging w (InfoSkipping (get_file_name m))).
    destruct (IH w0) as (w1 & Hrun & Hsame).
    { intros m' Hm'. apply Hall. by right. }
    rewrite Hrun. exists w1. split; [reflexivity|].
    eapply same_but_log_trans; [apply same_but_log_logging | exact Hsame].
Qed.

Lemma finish_all_done (net : Message -> transfer) (batch : list Message) (w : world) :
  finish_all net ((fun _ => Done RTrue) <$> batch) w
  = ((fun _ => RTrue) <$> batch, w).
Proof.
  induction batch as [|m rest IH]; [done|].
  rewrite !fmap_cons. cbn [Downloader.finish_all]. by rewrite IH.
Qed.

Lemma count_hits (batch : list Message) (st : stats) (w : world) :
  foldl count (st, w) ((fun _ => RTrue) <$> batch)
  = (mkStats (success st + length batch) (failed st) (skipped st), w).
Proof.
  revert st. induction batch as [|m rest IH]; intros st.
  - destruct st. simpl. by rewrite Nat.add_0_r.
  - rewrite fmap_cons. cbn [foldl count]. rewrite IH. simpl.
    do 2 f_equal. lia.
Qed.

Lemma batch_step_hits (net : Message -> transfer) (messages : list Message)
    (folder_path : string) (batch_size : Z) (st : stats) (w : world) (i : Z) :
  (forall m, m ∈ messages -> AStr (get_file_id m) ∈ ledger w) ->
  exists w1,
    batch_step net messages folder_path batch_size (st, w) i
    = (mkStats
         (success st
          + length (slice (Z.to_nat i) (Z.to_nat (i + batch_size)) messages))
         (failed st) (skipped st), w1)
    /\ same_but_log w w1.
Proof.
  intros Hall. unfold Downloader.batch_step, Downloader.gather. simpl.
  destruct (start_all_hits
              (slice (Z.to_nat i) (Z.to_nat (i + batch_size)) messages)
              folder_path w) as (w1 & Hrun & Hsame).
  { intros m Hm. apply Hall. by eapply elem_of_slice. }
  rewrite Hrun, finish_all_done, count_hits.
  exists w1. split; [reflexivity | exact Hsame].
Qed.

(** C1, what the code does. When the id of every message is already in the
    ledger, [download_batch] with a positive batch size reports every
    message under "success" and none under "skipped" or "failed"; it
    requests no transfer, and leaves the files and the ledger as they
    were. *)
Theorem rerun_reports_ledger_hits_as_success (net : Message -> transfer)
    (messages : list Message) (folder_path : string) (batch_size : Z) (w : world) :
  (0 < batch_size)%Z ->
  (forall m, m ∈ messages -> AStr (get_file_id m) ∈ ledger w) ->
  exists w',
    download_batch net messages folder_path batch_size w
    = Return (mkStats (length messages) 0 0, w')
    /\ requests w' = requests w
    /\ files w' = files w
    /\ ledger w' = ledger w.
Proof.
  intros Hpos Hall.
  destruct (download_batch_positive net messages folder_path batch_size w Hpos)
    as (st & w1 & Hloop & _ & Hrun).
  rewrite Hrun. clear Hrun.
  unfold Downloader.batch_loop in Hloop. rewrite foldl_fmap in Hloop.
  set (n := Z.to_nat ((Z.of_nat (length messages) + batch_size - 1) `div` batch_size))
    in Hloop.
  set (f := fun (acc : stats * world) (k : nat) =>
              batch_step net messages folder_path batch_size acc
                (Z.of_nat k * batch_size)%Z) in Hloop.
  set (w0 := with_display w []) in Hloop.
  assert (Hinv :
    (foldl f (mkStats 0 0 0, w0) (seq 0 n)).1
    = mkStats (Nat.min (n * Z.to_nat batch_size) (length messages)) 0 0
    /\ same_but_log w0 (foldl f (mkStats 0 0 0, w0) (seq 0 n)).2).
  { apply (foldl_seq_invariant f
      (fun k acc =>
         acc.1 = mkStats (Nat.min (k * Z.to_nat batch_size) (length messages)) 0 0
         /\ same_but_log w0 acc.2)).
    - split; [reflexivity | apply same_but_log_refl].
    - intros k [st' wk] _ [Hst Hsame]. simpl in Hst, Hsame. subst st'. unfold f.
      destruct (batch_step_hits net messages folder_path batch_size
                  (mkStats (Nat.min (k * Z.to_nat batch_size) (length messages)) 0 0)
                  wk (Z.of_nat k * batch_size)%Z) as (w2 & Hstep & Hsame1).
      { intros m Hm. destruct Hsame as (_ & _ & Hl & _). rewrite Hl. by apply Hall. }
      rewrite Hstep. simpl. split.
      + rewrite length_group by exact Hpos. f_equal. simpl. lia.
      + eapply same_but_log_trans; [exact Hsame | exact Hsame1]. }
  rewrite Hloop in Hinv.
  destruct Hinv as [Hst (Hf & Hr & Hl & _ & _ & _ & Hd)]. simpl in *. subst st.
  rewrite Hd. simpl.
  exists (with_display w1 (display w)). repeat split; auto.
  do 3 f_equal.
  pose proof (groups_cover (Z.of_nat (length messages)) batch_size
                ltac:(lia) Hpos) as Hcover.
  rewrite Nat2Z.id in Hcover. fold n in Hcover. lia.
Qed.

End BatchFacts.

(** ** Isolation of failures *)

Section IsolationFacts.

Variable isoformat : nat -> string.
Variable joinpath : string -> string -> string.
Variable renders : description -> bool.
Variable is_dir : string -> bool.
Variable net : Message -> transfer.
Variable folder_path : string.

Local Abbreviation download_file_start :=
  (Downloader.download_file_start joinpath renders).
Local Abbreviation download_file_finish :=
  (Downloader.download_file_finish isoformat is_dir).
Local Abbreviation start_all := (Downloader.start_all joinpath renders).
Local Abbreviation finish_all := (Downloader.finish_all isoformat is_dir net).
Local Abbreviation gather :=
  (Downloader.gather isoformat joinpath renders is_dir net).
Local Abbreviation batch_step :=
  (Downloader.batch_step isoformat joinpath renders is_dir net).
Local Abbreviation download_batch :=
  (Downloader.download_batch isoformat joinpath renders is_dir net).
Local Abbreviation displayable := (Downloader.displayable renders).
Local Abbreviation stored_as_file :=
  (Downloader.stored_as_file joinpath is_dir folder_path).
Local Abbreviation request_of := (Spec.request_of joinpath folder_path).

(** The ids of the messages of a list. *)
Local Abbreviation ids_of_messages l :=
  (list_to_set ((fun m => AStr (get_file_id m)) <$> l) : gset atom).

(** The ids of the messages of [l] whose task returns True. *)
Local Abbreviation recorded d l :=
  (list_to_set ((fun m => AStr (get_file_id m))
                  <$> filter (fun m => outcome_of net d m = RTrue) l) : gset atom).

(** Every description in the table of the display renders. *)
Local Abbreviation shown w := (forallb renders (display w) = true).

(** What the task of [m] is after its synchronous prefix, when the display
    could be refreshed. *)
Local Abbreviation task_for d m t :=
  (if bool_decide (AStr (get_file_id m) ∈ d) then t = Done RTrue
   else match destination_name m with
        | NameStr s =>
            exists k, t = Awaiting (mkPending m (get_file_id m) s
                                      (joinpath folder_path s) k)
        | NameObject => t = Done (RException TypeError)
        end).

Lemma forallb_insert {A} (f : A -> bool) (l : list A) (i : nat) (x : A) :
  forallb f l = true -> f x = true -> forallb f (<[i:=x]> l) = true.
Proof.
  revert i. induction l as [|y l IH]; intros i Hl Hx; [done|].
  simpl in Hl. apply andb_true_iff in Hl as [Hy Hl].
  destruct i; simpl; apply andb_true_iff; auto.
Qed.

Lemma omap_cons_list {A B} (f : A -> option B) (x : A) (l : list A) :
  omap f (x :: l) = option_list (f x) ++ omap f l.
Proof. csimpl. by destruct (f x). Qed.

Lemma displayable_name (m : Message) (s : string) :
  displayable m = true -> destination_name m = NameStr s ->
  renders (Downloading s) = true /\ renders (Downloaded s) = true
  /\ renders (Failed s) = true.
Proof.
  unfold Downloader.displayable. intros Hd Hs. rewrite Hs in Hd.
  apply andb_true_iff in Hd as [Hd H3]. apply andb_true_iff in Hd as [H1 H2].
  auto.
Qed.

Lemma download_file_start_spec (m : Message) (w : world) :
  shown w -> displayable m = true ->
  task_for (ledger w) m (download_file_start m folder_path w).1
  /\ ledger (download_file_start m folder_path w).2 = ledger w
  /\ requests (download_file_start m folder_path w).2
     = requests w ++ option_list (request_of (ledger w) m)
  /\ shown (download_file_start m folder_path w).2.
Proof.
  intros Hw Hm.
  unfold Downloader.download_file_start, Spec.request_of, is_downloaded, ledger.
  destruct (bool_decide (AStr (get_file_id m) ∈ downloaded_files (download_state w))).
  { simpl. by rewrite app_nil_r. }
  pose proof (displayable_name m) as Hname. unfold destination_name in *.
  destruct (if is_placeholder (get_file_name m) then fallback_name m
            else get_file_name m) as [s|]; simpl.
  - destruct (Hname s Hm eq_refl) as (H1 & _).
    unfold add_task, refresh. simpl.
    rewrite forallb_app, Hw. simpl. rewrite H1. simpl.
    repeat split; eauto.
    by rewrite forallb_app, Hw; simpl; rewrite H1.
  - by rewrite app_nil_r.
Qed.

Lemma start_all_spec (batch : list Message) (w : world) :
  shown w -> (forall m, m ∈ batch -> displayable m = true) ->
  Forall2 (fun m t => task_for (ledger w) m t) batch
    (start_all batch folder_path w).1
  /\ ledger (start_all batch folder_path w).2 = ledger w
  /\ requests (start_all batch folder_path w).2
     = requests w ++ omap (request_of (ledger w)) batch
  /\ shown (start_all batch folder_path w).2.
Proof.
  revert w. induction batch as [|m rest IH]; intros w Hw Hall.
  { simpl. by rewrite app_nil_r. }
  rewrite omap_cons_list. cbn [Downloader.start_all].
  destruct (download_file_start_spec m w Hw) as (Ht & Hl & Hr & Hs).
  { apply Hall. left. }
  destruct (download_file_start m folder_path w) as [t w1].
  cbn [fst snd] in Ht, Hl, Hr, Hs.
  destruct (IH w1 Hs) as (Hts & Hl2 & Hr2 & Hs2).
  { intros m' Hm'. apply Hall. by right. }
  destruct (start_all rest folder_path w1) as [ts w2].
  cbn [fst snd] in *.
  rewrite Hl in Hts, Hr2. rewrite Hl2, Hl, Hr2, Hr, app_assoc.
  repeat split; auto.
Qed.

Lemma download_file_finish_spec (m : Message) (s : string) (k : nat) (w : world) :
  shown w -> displayable m = true -> destination_name m = NameStr s ->
  let p := mkPending m (get_file_id m) s (joinpath folder_path s) k in
  let r := download_file_finish (net m) p w in
  shown r.2
  /\ ledger r.2
     = match net m with
       | Completed => {[AStr (get_file_id m)]} ∪ ledger w
       | Broken _ => ledger w
       end
  /\ requests r.2 = requests w
  /\ (stored_as_file m = true ->
      r.1 = match net m with Completed => RTrue | Broken _ => RFalse end).
Proof.
  intros Hw Hm Hs. destruct (displayable_name m s Hm Hs) as (_ & H2 & H3).
  unfold Downloader.stored_as_file. rewrite Hs.
  cbn zeta. unfold Downloader.download_file_finish, download_file_except, written.
  destruct (net m) as [|partial]; simpl.
  - destruct (is_dir (joinpath folder_path s)) eqn:Hdir; simpl.
    + destruct (mark_downloaded_returns isoformat (download_state w)
                  (get_file_id m)) as (s' & Hmark & Hd & _).
      rewrite Hmark. unfold ledger. simpl. rewrite Hd.
      repeat split; auto. by apply forallb_insert.
    + destruct (mark_downloaded_returns isoformat (download_state w)
                  (get_file_id m)) as (s' & Hmark & Hd & _).
      rewrite Hmark. unfold ledger. simpl. rewrite Hd.
      repeat split; auto. by apply forallb_insert.
  - assert (Hins : forall l, forallb renders l = true ->
                     forallb renders (<[k:=Failed s]> l) = true)
      by (intros l Hl; by apply forallb_insert).
    destruct (is_dir (joinpath folder_path s)) eqn:Hdir;
      destruct partial; simpl; rewrite ?Hdir; simpl;
      repeat case_bool_decide; simpl; repeat split; auto; discriminate.
Qed.

Lemma finish_all_spec (d : gset atom) (batch : list Message) (tasks : list task)
    (w : world) :
  Forall2 (fun m t => task_for d m t) batch tasks ->
  (forall m, m ∈ batch -> displayable m = true) ->
  shown w ->
  shown (finish_all tasks w).2
  /\ ledger (finish_all tasks w).2
     = ledger w
       ∪ list_to_set
           ((fun m => AStr (get_file_id m))
              <$> filter (fun m => (AStr (get_file_id m) ∉ d)
                                   /\ outcome_of net d m = RTrue) batch)
  /\ requests (finish_all tasks w).2 = requests w
  /\ ((forall m, m ∈ batch -> stored_as_file m = true) ->
      (finish_all tasks w).1 = outcome_of net d <$> batch).
Proof.
  intros Htasks. revert w.
  induction Htasks as [|m t batch tasks Ht _ IH]; intros w Hall Hw.
  { simpl. repeat split; auto. set_solver. }
  assert (Hrest : forall m', m' ∈ batch -> displayable m' = true)
    by (intros m' Hm'; apply Hall; by right).
  rewrite filter_cons, fmap_cons. cbn [Downloader.finish_all].
  destruct (decide (AStr (get_file_id m) ∈ d)) as [Hhit|Hhit].
  { rewrite bool_decide_eq_true_2 in Ht by exact Hhit. subst t.
    assert (Hout : outcome_of net d m = RTrue)
      by (unfold outcome_of; by rewrite bool_decide_eq_true_2).
    destruct (IH w Hrest Hw) as (Hs & Hl & Hr & Hres).
    destruct (finish_all tasks w) as [rs w1]. cbn [fst snd] in *.
    rewrite decide_False by tauto.
    repeat split; auto.
    intros Hst. rewrite Hres, Hout; [done|]. intros m' Hm'. apply Hst. by right. }
  rewrite bool_decide_eq_false_2 in Ht by exact Hhit.
  destruct (destination_name m) as [s|] eqn:Hname.
  - destruct Ht as [k ->].
    assert (Hout : outcome_of net d m
                   = match net m with Completed => RTrue | Broken _ => RFalse end)
      by (unfold outcome_of; by rewrite bool_decide_eq_false_2, Hname).
    destruct (download_file_finish_spec m s k w Hw) as (Hs1 & Hl1 & Hr1 & Hres1);
      [apply Hall; left | exact Hname |].
    cbn zeta in Hs1, Hl1, Hr1, Hres1. cbn [p_message].
    destruct (download_file_finish (net m) _ w) as [r w1].
    cbn [fst snd] in Hs1, Hl1, Hr1, Hres1.
    destruct (IH w1 Hrest Hs1) as (Hs & Hl & Hr & Hres).
    destruct (finish_all tasks w1) as [rs w2]. cbn [fst snd] in *.
    rewrite Hl, Hl1, Hr, Hr1, Hout.
    split; [exact Hs|]. split; [|split; [reflexivity|]].
    + destruct (net m).
      * rewrite decide_True by tauto. rewrite fmap_cons, list_to_set_cons.
        set_solver.
      * rewrite decide_False by (intros [_ ?]; discriminate). done.
    + intros Hst. rewrite Hres by (intros m' Hm'; apply Hst; by right).
      rewrite Hres1 by (apply Hst; left). done.
  - subst t.
    assert (Hout : outcome_of net d m = RException TypeError)
      by (unfold outcome_of; by rewrite bool_decide_eq_false_2, Hname).
    destruct (IH w Hrest Hw) as (Hs & Hl & Hr & Hres).
    destruct (finish_all tasks w) as [rs w1]. cbn [fst snd] in *.
    rewrite decide_False by (rewrite Hout; intros [_ ?]; discriminate).
    repeat split; auto.
    intros Hst. rewrite Hres, Hout; [done|]. intros m' Hm'. apply Hst. by right.
Qed.

(** One group, when every description renders: the display still renders
    afterwards; the ledger has gained the ids of the messages whose task
    returned True; one transfer was requested for each message that was
    not in the ledger; and, when no destination is a directory, the result
    of each task is a function of its own message and of the ledger at the
    start of the group. *)
Lemma gather_good (batch : list Message) (w : world) :
  shown w -> (forall m, m ∈ batch -> displayable m = true) ->
  shown (gather batch folder_path w).2
  /\ ledger (gather batch folder_path w).2 = ledger w ∪ recorded (ledger w) batch
  /\ requests (gather batch folder_path w).2
     = requests w ++ omap (request_of (ledger w)) batch
  /\ ((forall m, m ∈ batch -> stored_as_file m = true) ->
      (gather batch folder_path w).1 = outcome_of net (ledger w) <$> batch).
Proof.
  intros Hw Hall. unfold Downloader.gather.
  destruct (start_all_spec batch w Hw Hall) as (Hts & Hl & Hr & Hs).
  destruct (start_all batch folder_path w) as [tasks w1]. simpl in Hts, Hl, Hr, Hs.
  destruct (finish_all_spec (ledger w) batch tasks w1 Hts Hall Hs)
    as (Hs2 & Hl2 & Hr2 & Hres).
  split; [exact Hs2|]. split; [|split; [by rewrite Hr2, Hr | exact Hres]].
  rewrite Hl2, Hl. apply set_eq. intros x.
  rewrite !elem_of_union, !elem_of_list_to_set, !list_elem_of_fmap.
  split.
  - intros [Hx | (m & -> & Hm)]; [by left|].
    apply list_elem_of_filter in Hm as [[_ Htrue] Hm].
    right. exists m. split; [done|]. by apply list_elem_of_filter.
  - intros [Hx | (m & -> & Hm)]; [by left|].
    apply list_elem_of_filter in Hm as [Htrue Hm].
    destruct (decide (AStr (get_file_id m) ∈ ledger w)) as [Hin|Hout];
      [by left|].
    right. exists m. split; [done|]. by apply list_elem_of_filter.
Qed.

Lemma recorded_within (d : gset atom) (l : list Message) :
  recorded d l ⊆ ids_of_messages l.
Proof.
  intros a. rewrite !elem_of_list_to_set, !list_elem_of_fmap.
  intros (m & -> & Hm). apply list_elem_of_filter in Hm as [_ Hm]. eauto.
Qed.

Lemma outcome_of_cases (d : gset atom) (m : Message) :
  outcome_of net d m = RTrue
  \/ outcome_of net d m = RFalse
  \/ outcome_of net d m = RException TypeError.
Proof.
  unfold outcome_of.
  destruct (bool_decide (AStr (get_file_id m) ∈ d)); [by left|].
  destruct (destination_name m); [|by right; right].
  destruct (net m); [by left | by right; left].
Qed.

Lemma tally_app (d : gset atom) (r : outcome) (l k : list Message) :
  tally net d r (l ++ k) = tally net d r l + tally net d r k.
Proof. unfold tally. by rewrite filter_app, length_app. Qed.

Lemma tally_cons (d : gset atom) (r : outcome) (m : Message) (l : list Message) :
  tally net d r (m :: l)
  = (if decide (outcome_of net d m = r) then 1 else 0) + tally net d r l.
Proof.
  unfold tally. rewrite filter_cons. by destruct (decide (outcome_of net d m = r)).
Qed.

Lemma count_tally (d : gset atom) (batch : list Message) (st : stats) (w : world) :
  (foldl count (st, w) (outcome_of net d <$> batch)).1
  = mkStats (success st + tally net d RTrue batch)
            (failed st + tally net d (RException TypeError) batch)
            (skipped st + tally net d RFalse batch).
Proof.
  revert st w. induction batch as [|m rest IH]; intros st w.
  - destruct st. unfold tally. simpl. by rewrite !Nat.add_0_r.
  - rewrite fmap_cons, !tally_cons. cbn [foldl count].
    destruct (outcome_of_cases d m) as [Hm|[Hm|Hm]]; rewrite Hm;
      rewrite IH; simpl; repeat case_decide; try discriminate;
      f_equal; lia.
Qed.

(** The counting loop logs and counts; it leaves the ledger, the requests
    and the display alone. *)
Lemma count_keeps (rs : list outcome) (st : stats) (w : world) :
  ledger (foldl count (st, w) rs).2 = ledger w
  /\ requests (foldl count (st, w) rs).2 = requests w
  /\ display (foldl count (st, w) rs).2 = display w.
Proof.
  revert st w. induction rs as [|r rest IH]; intros st w; [done|].
  cbn [foldl count].
  destruct r as [| |e]; [apply IH | apply IH |].
  destruct (IH (mkStats (success st) (failed st + 1) (skipped st))
              (logging w (ErrorTaskFailed e))) as (Hl & Hr & Hd).
  by rewrite Hl, Hr, Hd.
Qed.

Lemma slice_group (k : nat) (batch_size : Z) (l : list Message) :
  (0 < batch_size)%Z ->
  slice (Z.to_nat (Z.of_nat k * batch_size))
        (Z.to_nat (Z.of_nat k * batch_size + batch_size)) l
  = take (Z.to_nat batch_size) (drop (k * Z.to_nat batch_size) l).
Proof.
  intros Hpos. unfold slice.
  rewrite Z2Nat.inj_add, Z2Nat.inj_mul, Nat2Z.id by lia.
  f_equal. lia.
Qed.

Lemma elem_of_group (b n : nat) (l : list Message) (m : Message) :
  m ∈ take b (drop n l) -> m ∈ l.
Proof.
  intros Hm. apply elem_of_take in Hm as (i & Hi & _).
  rewrite lookup_drop in Hi. by eapply list_elem_of_lookup_2.
Qed.

(** With distinct ids, a message of a later group is in the ledger that
    the earlier groups leave exactly when it was in the ledger at the
    start. *)
Lemma fresh_membership (messages : list Message) (n b : nat) (m : Message)
    (d d' : gset atom) :
  NoDup (get_file_id <$> messages) ->
  m ∈ take b (drop n messages) ->
  d ⊆ d' ->
  d' ⊆ d ∪ ids_of_messages (take n messages) ->
  AStr (get_file_id m) ∈ d' <-> AStr (get_file_id m) ∈ d.
Proof.
  intros Hnodup Hm Hlo Hhi. split; [|apply Hlo]. intros Hin.
  apply Hhi in Hin. apply elem_of_union in Hin as [Hin|Hin]; [exact Hin|].
  exfalso. rewrite elem_of_list_to_set in Hin.
  apply list_elem_of_fmap in Hin as (m' & Heq & Hm').
  injection Heq as Heq.
  rewrite <- (take_drop n messages), fmap_app in Hnodup.
  apply NoDup_app in Hnodup as (_ & Hdisj & _).
  apply (Hdisj (get_file_id m')).
  - apply list_elem_of_fmap. by exists m'.
  - rewrite <- Heq. apply list_elem_of_fmap. exists m. split; [done|].
    apply elem_of_take in Hm as (i & Hi & _).
    by eapply list_elem_of_lookup_2.
Qed.

Lemma filter_ext_elem {A} (P Q : A -> Prop) `{!forall x, Decision (P x)}
    `{!forall x, Decision (Q x)} (l : list A) :
  (forall x, x ∈ l -> (P x <-> Q x)) -> filter P l = filter Q l.
Proof.
  induction l as [|x l IH]; intros Hext; [done|].
  rewrite !filter_cons.
  rewrite IH by (intros y Hy; apply Hext; by right).
  destruct (decide (P x)) as [HP|HP], (decide (Q x)) as [HQ|HQ]; try done.
  - exfalso. apply HQ, Hext; [left | exact HP].
  - exfalso. apply HP, Hext; [left | exact HQ].
Qed.

Lemma omap_ext_elem {A B} (f g : A -> option B) (l : list A) :
  (forall x, x ∈ l -> f x = g x) -> omap f l = omap g l.
Proof.
  induction l as [|x l IH]; intros Hext; [done|].
  rewrite !omap_cons_list, (Hext x) by left.
  rewrite IH by (intros y Hy; apply Hext; by right). done.
Qed.

(** A whole run, when every description renders and the ids are distinct:
    [download_batch] returns; the result of each task is the one the
    message has on its own, read against the ledger at the start of the
    run; the ledger has gained the ids of the messages whose task returned
    True; a transfer was requested, in list order, for each message that
    was not in the ledger. *)
Lemma run_track (messages : list Message) (batch_size : Z) (w : world) :
  (0 < batch_size)%Z ->
  NoDup (get_file_id <$> messages) ->
  (forall m, m ∈ messages -> displayable m = true) ->
  exists st w',
    download_batch messages folder_path batch_size w = Return (st, w')
    /\ ledger w' = ledger w ∪ recorded (ledger w) messages
    /\ requests w' = requests w ++ omap (request_of (ledger w)) messages
    /\ ((forall m, m ∈ messages -> stored_as_file m = true) ->
        st = mkStats (tally net (ledger w) RTrue messages)
                     (tally net (ledger w) (RException TypeError) messages)
                     (tally net (ledger w) RFalse messages)).
Proof.
  intros Hpos Hnodup Hshow.
  destruct (download_batch_positive isoformat joinpath renders is_dir net
              messages folder_path batch_size w Hpos)
    as (st & w1 & Hloop & _ & Hrun).
  rewrite Hrun. clear Hrun.
  unfold Downloader.batch_loop in Hloop. rewrite foldl_fmap in Hloop.
  set (b := Z.to_nat batch_size).
  set (n := Z.to_nat ((Z.of_nat (length messages) + batch_size - 1) `div` batch_size))
    in Hloop.
  set (f := fun (acc : stats * world) (k : nat) =>
              batch_step messages folder_path batch_size acc
                (Z.of_nat k * batch_size)%Z) in Hloop.
  set (d := ledger w).
  set (w0 := with_display w []) in Hloop.
  assert (Hinv :
    let acc := foldl f (mkStats 0 0 0, w0) (seq 0 n) in
    shown acc.2
    /\ ledger acc.2 = d ∪ recorded d (take (n * b) messages)
    /\ requests acc.2 = requests w ++ omap (request_of d) (take (n * b) messages)
    /\ ((forall m, m ∈ messages -> stored_as_file m = true) ->
        acc.1 = mkStats (tally net d RTrue (take (n * b) messages))
                  (tally net d (RException TypeError) (take (n * b) messages))
                  (tally net d RFalse (take (n * b) messages)))).
  { apply (foldl_seq_invariant f
      (fun k acc =>
         shown acc.2
         /\ ledger acc.2 = d ∪ recorded d (take (k * b) messages)
         /\ requests acc.2
            = requests w ++ omap (request_of d) (take (k * b) messages)
         /\ ((forall m, m ∈ messages -> stored_as_file m = true) ->
             acc.1 = mkStats (tally net d RTrue (take (k * b) messages))
                       (tally net d (RException TypeError) (take (k * b) messages))
                       (tally net d RFalse (take (k * b) messages))))).
    - simpl. split; [done|]. split; [set_solver|]. split; [by rewrite app_nil_r|].
      done.
    - intros k [st' wk] _ (Hs & Hl & Hr & Hst). simpl in Hs, Hl, Hr, Hst.
      unfold f, Downloader.batch_step. simpl.
      rewrite slice_group by exact Hpos. fold b.
      set (batch := take b (drop (k * b) messages)).
      assert (Hsub : forall m, m ∈ batch -> m ∈ messages)
        by (intros m Hm; by eapply elem_of_group).
      destruct (gather_good batch wk Hs) as (Hs1 & Hl1 & Hr1 & Hres1).
      { intros m Hm. by apply Hshow, Hsub. }
      destruct (gather batch folder_path wk) as [results w2].
      simpl in Hs1, Hl1, Hr1, Hres1.
      assert (Hpre : take (b + k * b) messages = take (k * b) messages ++ batch).
      { unfold batch. rewrite take_take_drop. f_equal. lia. }
      assert (Hfresh : forall m, m ∈ batch ->
                AStr (get_file_id m) ∈ ledger wk <-> AStr (get_file_id m) ∈ d).
      { intros m Hm. eapply fresh_membership; [exact Hnodup | exact Hm | |].
        - rewrite Hl. set_solver.
        - rewrite Hl. apply union_mono_l, recorded_within. }
      assert (Hout : forall m, m ∈ batch ->
                outcome_of net (ledger wk) m = outcome_of net d m).
      { intros m Hm. unfold outcome_of.
        destruct (decide (AStr (get_file_id m) ∈ d)) as [Hd|Hd].
        - rewrite !bool_decide_eq_true_2; [done | done | by apply Hfresh].
        - rewrite !bool_decide_eq_false_2;
            [done | done | by rewrite (Hfresh m Hm)]. }
      assert (Hreq : forall m, m ∈ batch ->
                request_of (ledger wk) m = request_of d m).
      { intros m Hm. unfold Spec.request_of.
        destruct (decide (AStr (get_file_id m) ∈ d)) as [Hd|Hd].
        - rewrite !bool_decide_eq_true_2; [done | done | by apply Hfresh].
        - rewrite !bool_decide_eq_false_2;
            [done | done | by rewrite (Hfresh m Hm)]. }
      rewrite (filter_ext_elem (fun m => outcome_of net (ledger wk) m = RTrue)
                 (fun m => outcome_of net d m = RTrue) batch) in Hl1
        by (intros m Hm; by rewrite (Hout m Hm)).
      rewrite (omap_ext_elem (request_of (ledger wk)) (request_of d) batch Hreq)
        in Hr1.
      destruct (count_keeps results st' w2) as (Hcl & Hcr & Hcd).
      rewrite Hcl, Hcr, Hcd, Hl1, Hr1, Hl, Hr, Hpre.
      rewrite filter_app, fmap_app, list_to_set_app_L, omap_app, <- app_assoc.
      split; [exact Hs1|]. split; [set_solver|]. split; [done|].
      intros Hfile. rewrite Hres1 by (intros m Hm; by apply Hfile, Hsub).
      rewrite (list_fmap_ext (outcome_of net (ledger wk)) (outcome_of net d) batch)
        by (intros i m Hi; apply Hout; by eapply list_elem_of_lookup_2).
      rewrite count_tally, (Hst Hfile), !tally_app. done. }
  simpl in Hinv. rewrite Hloop in Hinv.
  destruct Hinv as (Hs & Hl & Hr & Hst). simpl in Hs, Hl, Hr, Hst.
  pose proof (groups_cover (Z.of_nat (length messages)) batch_size
                ltac:(lia) Hpos) as Hcover.
  rewrite Nat2Z.id in Hcover. fold n b in Hcover.
  rewrite take_ge in Hl, Hr, Hst by exact Hcover.
  rewrite Hs. exists st, (with_display w1 (display w)).
  by repeat split.
Qed.



End IsolationFacts.

(** ** A description that does not render *)

Section DisplayFacts.

Variable isoformat : nat -> string.
Variable joinpath : string -> string -> string.
Variable renders : description -> bool.
Variable is_dir : string -> bool.
Variable net : Message -> transfer.
Variable folder_path : string.

Local Abbreviation download_file_start :=
  (Downloader.download_file_start joinpath renders).
Local Abbreviation download_file_finish :=
  (Downloader.download_file_finish isoformat is_dir).
Local Abbreviation start_all := (Downloader.start_all joinpath renders).
Local Abbreviation finish_all := (Downloader.finish_all isoformat is_dir net).
Local Abbreviation gather :=
  (Downloader.gather isoformat joinpath renders is_dir net).
Local Abbreviation batch_step :=
  (Downloader.batch_step isoformat joinpath renders is_dir net).
Local Abbreviation download_batch :=
  (Downloader.download_batch isoformat joinpath renders is_dir net).
Local Abbreviation displayable := (Downloader.displayable renders).

Local Abbreviation ids_of_messages l :=
  (list_to_set ((fun m => AStr (get_file_id m)) <$> l) : gset atom).

Local Abbreviation shown w := (forallb renders (display w) = true).

(** The table of the display holds, under the task id [j], a description
    that does not render. *)
Local Abbreviation stuck j w :=
  (exists d, display w !! j = Some d /\ renders d = false).

Local Abbreviation is_done t := (exists r, t = Done r).

Lemma stuck_not_shown (j : nat) (w : world) :
  stuck j w -> forallb renders (display w) = false.
Proof.
  intros (d & Hj & Hd). apply not_true_is_false. intros Hall.
  rewrite forallb_forall in Hall.
  rewrite (Hall d) in Hd; [discriminate|].
  apply list_elem_of_In. by eapply list_elem_of_lookup_2.
Qed.

Lemma not_shown_stuck (w : world) :
  forallb renders (display w) = false -> exists j, stuck j w.
Proof.
  induction (display w) as [|d l IH]; [discriminate|].
  simpl. destruct (renders d) eqn:Hd; simpl.
  - intros Hl. destruct (IH Hl) as (j & d' & Hj & Hd').
    exists (S j), d'. by split.
  - intros _. exists 0, d. by split.
Qed.

(** What [download_file] does before its [await]: it leaves the ledger
    alone; either it leaves the display alone and is done, or it enters one
    task for a message that is not in the ledger and, according to the
    refresh, is suspended at the transfer or done with [MarkupError]. *)
Lemma start_cases (m : Message) (w : world) :
  ledger (download_file_start m folder_path w).2 = ledger w
  /\ ((display (download_file_start m folder_path w).2 = display w
       /\ is_done (download_file_start m folder_path w).1
       /\ (AStr (get_file_id m) ∈ ledger w \/ destination_name m = NameObject))
      \/ exists s,
           destination_name m = NameStr s
           /\ (AStr (get_file_id m) ∉ ledger w)
           /\ display (download_file_start m folder_path w).2
              = display w ++ [Downloading s]
           /\ if forallb renders (display w ++ [Downloading s])
              then exists p,
                     (download_file_start m folder_path w).1 = Awaiting p
                     /\ p_task p = length (display w)
                     /\ p_file_id p = get_file_id m
              else (download_file_start m folder_path w).1
                   = Done (RException MarkupError)).
Proof.
  unfold Downloader.download_file_start, is_downloaded, ledger, destination_name.
  destruct (decide (AStr (get_file_id m) ∈ downloaded_files (download_state w)))
    as [Hin|Hout].
  { rewrite bool_decide_eq_true_2 by exact Hin. simpl. split; [done|].
    left. eauto. }
  rewrite bool_decide_eq_false_2 by exact Hout.
  destruct (if is_placeholder (get_file_name m) then fallback_name m
            else get_file_name m) as [s|]; simpl.
  - unfold add_task, refresh. simpl.
    destruct (forallb renders (display w ++ [Downloading s])) eqn:Hr; simpl.
    + split; [done|]. right. exists s. rewrite Hr. repeat split; eauto.
    + split; [done|]. right. exists s. rewrite Hr. repeat split; eauto.
  - split; [done|]. left. eauto 6.
Qed.

Lemma start_stuck (m : Message) (w : world) (j : nat) :
  stuck j w ->
  stuck j (download_file_start m folder_path w).2
  /\ is_done (download_file_start m folder_path w).1.
Proof.
  intros Hj. pose proof (stuck_not_shown j w Hj) as Hbad.
  destruct Hj as (d & Hj & Hd).
  destruct (start_cases m w)
    as (_ & [(Hdisp & Hdone & _) | (s & _ & _ & Hdisp & Ht)]).
  - rewrite Hdisp. eauto.
  - rewrite Hdisp. rewrite forallb_app, Hbad in Ht. simpl in Ht.
    split; [|eauto]. exists d. split; [|exact Hd].
    by apply lookup_app_l_Some.
Qed.

Lemma start_all_stuck (batch : list Message) (w : world) (j : nat) :
  stuck j w ->
  stuck j (start_all batch folder_path w).2
  /\ Forall (fun t => is_done t) (start_all batch folder_path w).1.
Proof.
  revert w. induction batch as [|m rest IH]; intros w Hj; [by split|].
  cbn [Downloader.start_all].
  destruct (start_stuck m w j Hj) as [Hj1 Hdone].
  destruct (download_file_start m folder_path w) as [t w1].
  cbn [fst snd] in Hj1, Hdone.
  destruct (IH w1 Hj1) as [Hj2 Hrest].
  destruct (start_all rest folder_path w1) as [ts w2].
  cbn [fst snd] in *. split; [exact Hj2|]. by constructor.
Qed.

Lemma start_all_ledger (batch : list Message) (w : world) :
  ledger (start_all batch folder_path w).2 = ledger w
  /\ Forall (fun t => forall p, t = Awaiting p ->
                        exists m, m ∈ batch /\ p_file_id p = get_file_id m)
       (start_all batch folder_path w).1.
Proof.
  revert w. induction batch as [|m rest IH]; intros w; [by split|].
  cbn [Downloader.start_all].
  destruct (start_cases m w) as (Hl & Hcases).
  destruct (download_file_start m folder_path w) as [t w1].
  cbn [fst snd] in Hl, Hcases.
  destruct (IH w1) as [Hl2 Hrest].
  destruct (start_all rest folder_path w1) as [ts w2].
  cbn [fst snd] in *. split; [by rewrite Hl2|].
  constructor.
  - intros p ->. exists m. split; [left|].
    destruct Hcases as [(_ & [r Hr] & _) | (s & _ & _ & _ & Ht)]; [discriminate|].
    destruct (forallb renders (display w ++ [Downloading s]));
      [|discriminate].
    destruct Ht as (p' & [= <-] & _ & Hid). exact Hid.
  - eapply Forall_impl; [exact Hrest|]. simpl.
    intros t' Ht' p Hp. destruct (Ht' p Hp) as (m' & Hm' & Hid).
    exists m'. split; [by right | exact Hid].
Qed.

(** The first message of a group that is not in the ledger and whose
    description does not render leaves that description in the table; the
    tasks that are suspended at their transfer were entered before it. *)
Lemma start_all_bad (batch : list Message) (w : world) (m : Message) (s : string) :
  shown w ->
  m ∈ batch ->
  (AStr (get_file_id m) ∉ ledger w) ->
  destination_name m = NameStr s ->
  renders (Downloading s) = false ->
  exists j,
    length (display w) <= j
    /\ stuck j (start_all batch folder_path w).2
    /\ Forall (fun t => forall p, t = Awaiting p -> p_task p < j)
         (start_all batch folder_path w).1.
Proof.
  intros Hw Hm Hfresh Hs Hbad. revert w Hw Hfresh.
  induction batch as [|x rest IH]; intros w Hw Hfresh.
  { by apply elem_of_nil in Hm. }
  cbn [Downloader.start_all].
  destruct (start_cases x w) as (Hl & Hcases).
  assert (Hafter : forall j,
            stuck j (download_file_start x folder_path w).2 ->
            is_done (download_file_start x folder_path w).1 ->
            length (display w) <= j ->
            exists j,
              length (display w) <= j
              /\ stuck j
                   (let '(t, w1) := download_file_start x folder_path w in
                    let '(ts, w2) := start_all rest folder_path w1 in
                    (t :: ts, w2)).2
              /\ Forall (fun t => forall p, t = Awaiting p -> p_task p < j)
                   (let '(t, w1) := download_file_start x folder_path w in
                    let '(ts, w2) := start_all rest folder_path w1 in
                    (t :: ts, w2)).1).
  { intros j Hj [r Hr] Hle.
    destruct (download_file_start x folder_path w) as [t w1].
    cbn [fst snd] in Hj, Hr. subst t.
    destruct (start_all_stuck rest w1 j Hj) as [Hj2 Hdone].
    destruct (start_all rest folder_path w1) as [ts w2]. cbn [fst snd] in *.
    exists j. split; [exact Hle|]. split; [exact Hj2|].
    constructor; [discriminate|].
    eapply Forall_impl; [exact Hdone|]. simpl. intros t [r' ->] p. discriminate. }
  assert (Hnew : forall s',
            display (download_file_start x folder_path w).2
            = display w ++ [Downloading s'] ->
            forallb renders (display w ++ [Downloading s']) = false ->
            stuck (length (display w)) (download_file_start x folder_path w).2).
  { intros s' Hdisp Hr. rewrite Hdisp.
    rewrite forallb_app, Hw in Hr. simpl in Hr.
    rewrite andb_true_r in Hr.
    exists (Downloading s'). split; [|exact Hr].
    by rewrite lookup_app_r, Nat.sub_diag by lia. }
  apply elem_of_cons in Hm as [<-|Hm].
  { destruct Hcases as [(_ & _ & [Hin | Hobj]) | (s' & Hs' & _ & Hdisp & Ht)].
    - by destruct Hfresh.
    - rewrite Hs in Hobj. discriminate.
    - rewrite Hs in Hs'. injection Hs' as <-.
      assert (Hr : forallb renders (display w ++ [Downloading s]) = false)
        by (rewrite forallb_app, Hw; simpl; by rewrite Hbad).
      rewrite Hr in Ht.
      apply (Hafter (length (display w))); [by apply (Hnew s) | eauto | lia]. }
  destruct Hcases as [(Hdisp & [r Hr] & _) | (s' & Hs' & _ & Hdisp & Ht)].
  - destruct (download_file_start x folder_path w) as [t w1].
    cbn [fst snd] in Hl, Hdisp, Hr. subst t.
    destruct (IH Hm w1) as (j & Hle & Hj & Hts);
      [by rewrite Hdisp | by rewrite Hl |].
    destruct (start_all rest folder_path w1) as [ts w2]. cbn [fst snd] in *.
    exists j. rewrite Hdisp in Hle. split; [exact Hle|]. split; [exact Hj|].
    constructor; [discriminate | exact Hts].
  - destruct (forallb renders (display w ++ [Downloading s'])) eqn:Hr.
    + destruct Ht as (p & Hp & Htask & _).
      destruct (download_file_start x folder_path w) as [t w1].
      cbn [fst snd] in Hl, Hdisp, Hp. subst t.
      destruct (IH Hm w1) as (j & Hle & Hj & Hts);
        [by rewrite Hdisp | by rewrite Hl |].
      destruct (start_all rest folder_path w1) as [ts w2]. cbn [fst snd] in *.
      rewrite Hdisp, length_app in Hle. simpl in Hle.
      exists j. split; [lia|]. split; [exact Hj|].
      constructor; [|exact Hts]. intros p' [= <-]. lia.
    + apply (Hafter (length (display w))); [by apply (Hnew s') | eauto | lia].
Qed.

Lemma download_file_finish_bounds (t : transfer) (p : pending) (w : world) :
  ledger w ⊆ ledger (download_file_finish t p w).2
  /\ ledger (download_file_finish t p w).2 ⊆ {[AStr (p_file_id p)]} ∪ ledger w.
Proof.
  unfold Downloader.download_file_finish, download_file_except, written.
  destruct t as [|partial].
  - destruct (mark_downloaded_returns isoformat
                (download_state
                   (if is_dir (p_file_path p) then w
                    else with_files w ({[p_file_path p]} ∪ files w)))
                (p_file_id p)) as (s & Hs & Hd & _).
    rewrite Hs. unfold ledger. simpl. rewrite Hd.
    destruct (is_dir (p_file_path p)); simpl; set_solver.
  - unfold ledger.
    destruct partial, (is_dir (p_file_path p)); simpl;
      repeat case_bool_decide; simpl; set_solver.
Qed.

Lemma download_file_finish_stuck (t : transfer) (p : pending) (w : world)
    (j : nat) :
  stuck j w -> p_task p <> j -> stuck j (download_file_finish t p w).2.
Proof.
  intros (d & Hj & Hd) Hne. exists d. split; [|exact Hd].
  unfold Downloader.download_file_finish, download_file_except, written.
  destruct t as [|partial].
  - destruct (mark_downloaded_returns isoformat
                (download_state
                   (if is_dir (p_file_path p) then w
                    else with_files w ({[p_file_path p]} ∪ files w)))
                (p_file_id p)) as (s & Hs & _).
    rewrite Hs.
    destruct (is_dir (p_file_path p)); simpl;
      by rewrite list_lookup_insert_ne.
  - destruct partial, (is_dir (p_file_path p)); simpl;
      repeat case_bool_decide; simpl; by rewrite list_lookup_insert_ne.
Qed.

Lemma finish_all_bounds (tasks : list task) (w : world) :
  ledger w ⊆ ledger (finish_all tasks w).2
  /\ ledger (finish_all tasks w).2
     ⊆ ledger w
       ∪ list_to_set
           (tasks ≫= fun t => match t with
                               | Done _ => []
                               | Awaiting p => [AStr (p_file_id p)]
                               end).
Proof.
  revert w. induction tasks as [|t rest IH]; intros w.
  - simpl. split; set_solver.
  - rewrite bind_cons. cbn [Downloader.finish_all].
    destruct t as [r|p].
    + destruct (IH w) as (Hlo & Hhi).
      destruct (finish_all rest w) as [rs w1]. cbn [fst snd] in *.
      split; set_solver.
    + destruct (download_file_finish_bounds (net (p_message p)) p w)
        as (Hlo1 & Hhi1).
      destruct (download_file_finish (net (p_message p)) p w) as [r w1].
      cbn [fst snd] in Hlo1, Hhi1.
      destruct (IH w1) as (Hlo & Hhi).
      destruct (finish_all rest w1) as [rs w2]. cbn [fst snd] in *.
      split; set_solver.
Qed.

Lemma finish_all_stuck (tasks : list task) (w : world) (j : nat) :
  stuck j w ->
  Forall (fun t => forall p, t = Awaiting p -> p_task p <> j) tasks ->
  stuck j (finish_all tasks w).2.
Proof.
  intros Hj Hne. revert w Hj.
  induction Hne as [|t rest Ht _ IH]; intros w Hj; [exact Hj|].
  cbn [Downloader.finish_all]. destruct t as [r|p].
  - specialize (IH w Hj). by destruct (finish_all rest w).
  - pose proof (download_file_finish_stuck (net (p_message p)) p w j Hj
                  (Ht p eq_refl)) as Hj1.
    destruct (download_file_finish (net (p_message p)) p w) as [r w1].
    specialize (IH w1 Hj1). by destruct (finish_all rest w1).
Qed.

(** Whatever the display does, a group leaves the ledger it found, plus
    ids of its own messages. *)
Lemma gather_bounds (batch : list Message) (w : world) :
  ledger w ⊆ ledger (gather batch folder_path w).2
  /\ ledger (gather batch folder_path w).2 ⊆ ledger w ∪ ids_of_messages batch.
Proof.
  unfold Downloader.gather.
  destruct (start_all_ledger batch w) as [Hl Hids].
  destruct (start_all batch folder_path w) as [tasks w1]. cbn [fst snd] in Hl, Hids.
  destruct (finish_all_bounds tasks w1) as [Hlo Hhi]. rewrite Hl in Hlo, Hhi.
  split; [exact Hlo|]. etrans; [exact Hhi|]. apply union_mono_l.
  intros a. rewrite !elem_of_list_to_set, list_elem_of_bind, list_elem_of_fmap.
  intros (t & Ha & Ht). rewrite Forall_forall in Hids.
  destruct t as [r|p]; [by apply elem_of_nil in Ha|].
  apply list_elem_of_singleton in Ha as ->.
  destruct (Hids _ Ht p eq_refl) as (m & Hm & ->). eauto.
Qed.

Lemma count_display (rs : list outcome) (st : stats) (w : world) :
  display (foldl count (st, w) rs).2 = display w
  /\ ledger (foldl count (st, w) rs).2 = ledger w.
Proof.
  revert st w. induction rs as [|r rest IH]; intros st w; [done|].
  cbn [foldl count].
  destruct r as [| |e]; [apply IH | apply IH |].
  destruct (IH (mkStats (success st) (failed st + 1) (skipped st))
              (logging w (ErrorTaskFailed e))) as (Hd & Hl).
  by rewrite Hd, Hl.
Qed.

(** Once a description that does not render is in the table, it stays:
    no later task gets as far as its transfer, and none replaces it. *)
Lemma gather_stuck (batch : list Message) (w : world) (j : nat) :
  stuck j w -> stuck j (gather batch folder_path w).2.
Proof.
  intros Hj. unfold Downloader.gather.
  destruct (start_all_stuck batch w j Hj) as [Hj1 Hdone].
  destruct (start_all batch folder_path w) as [tasks w1]. cbn [fst snd] in *.
  apply finish_all_stuck; [exact Hj1|].
  eapply Forall_impl; [exact Hdone|]. simpl. intros t [r ->] p. discriminate.
Qed.

Lemma gather_bad (batch : list Message) (w : world) (m : Message) (s : string) :
  m ∈ batch ->
  AStr (get_file_id m) ∉ ledger w ->
  destination_name m = NameStr s ->
  renders (Downloading s) = false ->
  exists j, stuck j (gather batch folder_path w).2.
Proof.
  intros Hm Hfresh Hs Hbad.
  destruct (forallb renders (display w)) eqn:Hw.
  - unfold Downloader.gather.
    destruct (start_all_bad batch w m s Hw Hm Hfresh Hs Hbad)
      as (j & _ & Hj & Hts).
    destruct (start_all batch folder_path w) as [tasks w1]. cbn [fst snd] in *.
    exists j. apply finish_all_stuck; [exact Hj|].
    eapply Forall_impl; [exact Hts|]. simpl. intros t Ht p Hp.
    specialize (Ht p Hp). lia.
  - destruct (not_shown_stuck w Hw) as [j Hj].
    exists j. by apply gather_stuck.
Qed.

Lemma elem_of_group' (b n : nat) (l : list Message) (m : Message) :
  m ∈ take b (drop n l) -> m ∈ l.
Proof.
  intros Hm. apply elem_of_take in Hm as (i & Hi & _).
  rewrite lookup_drop in Hi. by eapply list_elem_of_lookup_2.
Qed.

(** A run returns when each of its descriptions renders. *)
Lemma run_returns (messages : list Message) (batch_size : Z) (w : world) :
  (0 < batch_size)%Z ->
  (forall m, m ∈ messages -> displayable m = true) ->
  exists st w',
    download_batch messages folder_path batch_size w = Return (st, w')
    /\ processed st = length messages.
Proof.
  intros Hpos Hshow.
  destruct (download_batch_positive isoformat joinpath renders is_dir net
              messages folder_path batch_size w Hpos)
    as (st & w1 & Hloop & Hcount & Hrun).
  rewrite Hrun. clear Hrun.
  unfold Downloader.batch_loop in Hloop. rewrite foldl_fmap in Hloop.
  set (n := Z.to_nat ((Z.of_nat (length messages) + batch_size - 1) `div` batch_size))
    in Hloop.
  set (f := fun (acc : stats * world) (k : nat) =>
              batch_step messages folder_path batch_size acc
                (Z.of_nat k * batch_size)%Z) in Hloop.
  assert (Hinv : shown (foldl f (mkStats 0 0 0, with_display w []) (seq 0 n)).2).
  { apply (foldl_seq_invariant f (fun _ acc => shown acc.2)); [done|].
    intros k [st' wk] _ Hs. cbn [snd] in Hs.
    unfold f, Downloader.batch_step. cbn [fst snd].
    rewrite (slice_group k batch_size messages Hpos).
    set (batch := take (Z.to_nat batch_size) (drop (k * Z.to_nat batch_size) messages)).
    destruct (gather_good isoformat joinpath renders is_dir net folder_path
                batch wk Hs) as (Hs1 & _).
    { intros m Hm. apply Hshow. by eapply elem_of_group'. }
    destruct (gather batch folder_path wk) as [results w2]. cbn [snd] in Hs1.
    destruct (count_display results st' w2) as [Hd _]. by rewrite Hd. }
  rewrite Hloop in Hinv. cbn [snd] in Hinv. rewrite Hinv.
  exists st, (with_display w1 (display w)). by split.
Qed.

(** A run raises [MarkupError] when the list holds, under distinct ids, a
    message that is not in the ledger and whose description does not
    render. *)
Lemma run_raises (messages : list Message) (batch_size : Z) (w : world)
    (m : Message) (s : string) :
  (0 < batch_size)%Z ->
  NoDup (get_file_id <$> messages) ->
  m ∈ messages ->
  AStr (get_file_id m) ∉ ledger w ->
  destination_name m = NameStr s ->
  renders (Downloading s) = false ->
  download_batch messages folder_path batch_size w = Raise MarkupError.
Proof.
  intros Hpos Hnodup Hm Hfresh Hs Hbad.
  destruct (download_batch_positive isoformat joinpath renders is_dir net
              messages folder_path batch_size w Hpos)
    as (st & w1 & Hloop & _ & Hrun).
  rewrite Hrun. clear Hrun.
  unfold Downloader.batch_loop in Hloop. rewrite foldl_fmap in Hloop.
  set (b := Z.to_nat batch_size).
  set (n := Z.to_nat ((Z.of_nat (length messages) + batch_size - 1) `div` batch_size))
    in Hloop.
  set (f := fun (acc : stats * world) (k : nat) =>
              batch_step messages folder_path batch_size acc
                (Z.of_nat k * batch_size)%Z) in Hloop.
  set (d := ledger w).
  assert (Hinv :
    let acc := foldl f (mkStats 0 0 0, with_display w []) (seq 0 n) in
    d ⊆ ledger acc.2
    /\ ledger acc.2 ⊆ d ∪ ids_of_messages (take (n * b) messages)
    /\ (m ∈ take (n * b) messages -> exists j, stuck j acc.2)).
  { apply (foldl_seq_invariant f
      (fun k acc =>
         d ⊆ ledger acc.2
         /\ ledger acc.2 ⊆ d ∪ ids_of_messages (take (k * b) messages)
         /\ (m ∈ take (k * b) messages -> exists j, stuck j acc.2))).
    - simpl. split; [done|]. split; [set_solver|].
      intros H. by apply elem_of_nil in H.
    - intros k [st' wk] _ (Hlo & Hhi & Hstuck). cbn [snd] in Hlo, Hhi, Hstuck.
      unfold f, Downloader.batch_step. cbn [fst snd].
      rewrite (slice_group k batch_size messages Hpos). fold b.
      set (batch := take b (drop (k * b) messages)).
      assert (Hpre : take (S k * b) messages = take (k * b) messages ++ batch).
      { unfold batch. rewrite take_take_drop. f_equal. lia. }
      destruct (gather_bounds batch wk) as [Hlo1 Hhi1].
      pose proof (gather_stuck batch wk) as Hkeep.
      pose proof (gather_bad batch wk m s) as Hnew.
      destruct (gather batch folder_path wk) as [results w2].
      cbn [snd] in Hlo1, Hhi1, Hkeep, Hnew.
      destruct (count_display results st' w2) as [Hcd Hcl].
      rewrite Hcl, Hcd, Hpre.
      split; [set_solver|]. split.
      { rewrite fmap_app, list_to_set_app_L. set_solver. }
      intros Hin. apply elem_of_app in Hin as [Hin|Hin].
      + destruct (Hstuck Hin) as [j Hj]. exists j. by apply Hkeep.
      + apply Hnew; [exact Hin | | exact Hs | exact Hbad].
        rewrite (fresh_membership messages (k * b) b m d (ledger wk)
                   Hnodup Hin Hlo Hhi). exact Hfresh. }
  cbn zeta in Hinv. rewrite Hloop in Hinv. cbn [snd] in Hinv.
  destruct Hinv as (_ & _ & Hstuck).
  pose proof (groups_cover (Z.of_nat (length messages)) batch_size
                ltac:(lia) Hpos) as Hcover.
  rewrite Nat2Z.id in Hcover. fold n b in Hcover.
  rewrite take_ge in Hstuck by exact Hcover.
  destruct (Hstuck Hm) as [j Hj].
  by rewrite (stuck_not_shown j w1 Hj).
Qed.

(** C10, what the code does. With a positive batch size, the stats that
    [download_batch] returns count every message of the list once; it
    returns them when each description of the list renders. When the list
    holds, under distinct ids, a message that is not in the ledger and
    whose description does not render, [download_batch] raises
    [MarkupError] and returns no stats. *)
Theorem download_batch_counts_unless_display_fails (messages : list Message)
    (batch_size : Z) (w : world) :
  (0 < batch_size)%Z ->
  (forall st w',
     download_batch messages folder_path batch_size w = Return (st, w') ->
     success st + failed st + skipped st = length messages)
  /\ ((forall m, m ∈ messages -> displayable m = true) ->
      exists st w',
        download_batch messages folder_path batch_size w = Return (st, w')
        /\ success st + failed st + skipped st = length messages)
  /\ (forall m s,
        NoDup (get_file_id <$> messages) ->
        m ∈ messages ->
        AStr (get_file_id m) ∉ ledger w ->
        destination_name m = NameStr s ->
        renders (Downloading s) = false ->
        download_batch messages folder_path batch_size w = Raise MarkupError).
Proof.
  intros Hpos. split; [|split].
  - intros st w' Hret.
    destruct (download_batch_positive isoformat joinpath renders is_dir net
                messages folder_path batch_size w Hpos)
      as (st1 & w1 & _ & Hcount & Hrun).
    rewrite Hrun in Hret.
    destruct (forallb renders (display w1)); [|discriminate].
    injection Hret as <- _. exact Hcount.
  - intros Hshow. by apply run_returns.
  - intros m s Hnodup Hm Hfresh Hs Hbad. by eapply run_raises.
Qed.

End DisplayFacts.

(** ** The orchestrator on three photos *)

Section BatchExamples.

Import Samples.

Lemma three_photos_recorded (m : Message) :
  m ∈ three_photos -> AStr (get_file_id m) ∈ ledger after_first_run.
Proof.
  unfold three_photos. rewrite !elem_of_cons, elem_of_nil.
  intros [->|[->|[->|[]]]]; apply (bool_decide_unpack _); vm_compute; exact I.
Qed.

(** The second of two runs on the same three photos with the same ledger,
    every transfer of the first run having completed: 3 under "success",
    0 under "skipped", and no further transfer requested. *)
Lemma rerun_reports_ledger_hits_as_success_witness :
  (0 < 2)%Z
  /\ (forall m, m ∈ three_photos -> AStr (get_file_id m) ∈ ledger after_first_run)
  /\ exists w',
       batch_run all_complete three_photos 2 after_first_run
       = Return (mkStats 3 0 0, w')
       /\ requests w' = requests after_first_run
       /\ files w' = files after_first_run
       /\ ledger w' = ledger after_first_run.
Proof.
  split; [reflexivity|]. split; [exact three_photos_recorded|].
  exact (rerun_reports_ledger_hits_as_success isoformat joinpath renders is_dir
           all_complete three_photos "downloads" 2 after_first_run eq_refl
           three_photos_recorded).
Defined.

Lemma three_photos_distinct : NoDup (get_file_id <$> three_photos).
Proof. apply (bool_decide_unpack _). vm_compute. exact I. Qed.

Lemma three_photos_displayable (m : Message) :
  m ∈ three_photos -> displayable renders m = true.
Proof.
  unfold three_photos. rewrite !elem_of_cons, elem_of_nil.
  intros [->|[->|[->|[]]]]; reflexivity.
Qed.



(** The same run, evaluated: items 1 and 3 complete, are on disk and in the
    ledger; the partial file of item 2 is gone and its id is not recorded. *)
Lemma second_of_three_breaks :
  exists w',
    batch_run second_breaks three_photos 5 fresh_world = Return (mkStats 2 0 1, w')
    /\ files w' = {["downloads/photo_1.jpg"; "downloads/photo_3.jpg"]}
    /\ ledger w' = {[AStr "photo_1_101"; AStr "photo_3_103"]}
    /\ requests w'
       = ["downloads/photo_1.jpg"; "downloads/photo_2.jpg"; "downloads/photo_3.jpg"].
Proof.
  eexists. split; [vm_compute; reflexivity|].
  repeat split; vm_compute; reflexivity.
Qed.

(** The transfer of a document with an empty name breaks: its destination
    is the download folder, the handler's [unlink] raises on it, and the
    item is counted under "failed". *)
Lemma nameless_document_breaks :
  exists w',
    batch_run second_breaks
      [photo_message 1; MoreSamples.nameless_document 2; photo_message 3]
      5 fresh_world
    = Return (mkStats 2 1 0, w')
    /\ requests w' = ["downloads/photo_1.jpg"; "downloads"; "downloads/photo_3.jpg"].
Proof. eexists. split; vm_compute; reflexivity. Qed.

Lemma markup_document_distinct :
  NoDup (get_file_id
           <$> [photo_message 1; MoreSamples.markup_document 2; photo_message 3]).
Proof. apply (bool_decide_unpack _). vm_compute. exact I. Qed.

Lemma markup_document_fresh :
  AStr (get_file_id (MoreSamples.markup_document 2)) ∉ ledger fresh_world.
Proof. apply (bool_decide_unpack _). vm_compute. exact I. Qed.

(** A document named "a[/b].pdf" between two photos, every transfer
    completing: [download_batch] raises [MarkupError] and returns no
    stats. *)
Lemma download_batch_counts_unless_display_fails_witness :
  (0 < 5)%Z
  /\ batch_run all_complete
       [photo_message 1; MoreSamples.markup_document 2; photo_message 3]
       5 fresh_world
     = Raise MarkupError.
Proof.
  split; [reflexivity|].
  destruct (download_batch_counts_unless_display_fails isoformat joinpath
              renders is_dir all_complete "downloads"
              [photo_message 1; MoreSamples.markup_document 2; photo_message 3]
              5 fresh_world eq_refl) as (_ & _ & Hraise).
  apply (Hraise (MoreSamples.markup_document 2) "a[/b].pdf").
  - exact markup_document_distinct.
  - right. left.
  - exact markup_document_fresh.
  - reflexivity.
  - reflexivity.
Defined.

End BatchExamples.

(** ** The extraction report *)

Section ReportFacts.

Variable isoformat : nat -> string.

Lemma sum_counts_bump (types : gmap string nat) (l : LinkRecord) :
  sum_counts (bump types l) = S (sum_counts types).
Proof.
  unfold bump, sum_counts.
  assert (Hcomm : forall (j1 j2 : string) (z1 z2 y : nat),
            z1 + (z2 + y) = z2 + (z1 + y)) by (intros; lia).
  destruct (types !! context l) as [v|] eqn:Hk; simpl.
  - rewrite (map_fold_delete_L _ 0 (context l) v types); [|by intros; apply Hcomm|done].
    rewrite <- insert_delete_eq.
    rewrite map_fold_insert_L; [lia|by intros; apply Hcomm|].
    apply lookup_delete_eq.
  - rewrite map_fold_insert_L; [lia|by intros; apply Hcomm|done].
Qed.

Lemma sum_counts_foldl_bump (ls : list LinkRecord) (types : gmap string nat) :
  sum_counts (foldl bump types ls) = sum_counts types + length ls.
Proof.
  revert types. induction ls as [|l rest IH]; intros types; simpl; [lia|].
  rewrite IH, sum_counts_bump. lia.
Qed.

Lemma visit_invariant (messages : list Message) (a : acc) :
  total_links a = length (acc_links a) ->
  sum_counts (acc_types a) = length (acc_links a) ->
  total_links (foldl (visit isoformat) a messages)
  = length (acc_links (foldl (visit isoformat) a messages))
  /\ sum_counts (acc_types (foldl (visit isoformat) a messages))
     = length (acc_links (foldl (visit isoformat) a messages))
  /\ message_count (foldl (visit isoformat) a messages)
     = message_count a + length messages.
Proof.
  revert a. induction messages as [|msg rest IH]; intros a Ht Hs.
  - simpl. repeat split; auto.
  - cbn [foldl].
    destruct (IH (visit isoformat a msg)) as (H1 & H2 & H3).
    + unfold visit. destruct (process_message isoformat msg (acc_clock a)) as [ls t'].
      simpl. rewrite length_app. lia.
    + unfold visit. destruct (process_message isoformat msg (acc_clock a)) as [ls t'].
      simpl. rewrite sum_counts_foldl_bump, length_app. lia.
    + repeat split; auto. rewrite H3. unfold visit.
      destruct (process_message isoformat msg (acc_clock a)). simpl. lia.
Qed.

Lemma size_list_to_set_distinct (l : list string) :
  size (list_to_set l : gset string) = length (remove_dups l).
Proof.
  rewrite <- (size_list_to_set (C:=gset string) (remove_dups l))
    by apply NoDup_remove_dups.
  f_equal. apply set_eq. intros x.
  by rewrite !elem_of_list_to_set, elem_of_remove_dups.
Qed.

(** C6. In the report over the collected records, [unique_links] is the
    number of distinct link strings under exact string equality, the
    per-context counts of [link_types] sum to [total_links_found], and
    [total_links_found] is the number of collected records. *)
Theorem report_statistics (messages : list Message) (t : nat) :
  unique_links (extract_links_from_channel isoformat messages t)
  = distinct_links (links (extract_links_from_channel isoformat messages t))
  /\ sum_counts (link_types (extract_links_from_channel isoformat messages t))
     = total_links_found (extract_links_from_channel isoformat messages t)
  /\ total_links_found (extract_links_from_channel isoformat messages t)
     = length (links (extract_links_from_channel isoformat messages t))
  /\ total_messages_processed (extract_links_from_channel isoformat messages t)
     = length messages.
Proof.
  unfold extract_links_from_channel, distinct_links. simpl.
  destruct (visit_invariant messages (mkAcc 0 0 [] ∅ (S t))) as (H1 & H2 & H3);
    [reflexivity | reflexivity |].
  split; [apply size_list_to_set_distinct|].
  split; [congruence|]. split; [exact H1 | exact H3].
Qed.

End ReportFacts.

(** Two messages carry the same literal link, one in its text and one on a
    button: one unique link, and one record counted for each context. With
    a different capital letter the two links are distinct. *)
Lemma same_link_in_two_contexts :
  unique_links
    (extract_links_from_channel Samples.isoformat
       [Samples.text_message 1 "see t.me/foo_bar";
        Samples.button_message 2 "t.me/foo_bar"] 0) = 1
  /\ link_types
       (extract_links_from_channel Samples.isoformat
          [Samples.text_message 1 "see t.me/foo_bar";
           Samples.button_message 2 "t.me/foo_bar"] 0)
     = {["text" := 1; "button" := 1]}
  /\ total_links_found
       (extract_links_from_channel Samples.isoformat
          [Samples.text_message 1 "see t.me/foo_bar";
           Samples.button_message 2 "t.me/foo_bar"] 0) = 2
  /\ unique_links
       (extract_links_from_channel Samples.isoformat
          [Samples.text_message 1 "see t.me/foo_bar";
           Samples.button_message 2 "t.me/Foo_bar"] 0) = 2.
Proof. repeat split; vm_compute; reflexivity. Qed.

(** ** The link scanner *)

Section ScannerFacts.

Variable isoformat : nat -> string.

(** *** The matcher *)

Lemma lit_match_at (a : ascii) : lit_match "@" a = true -> a = "@"%char.
Proof.
  unfold lit_match.
  destruct a as [[] [] [] [] [] [] [] []]; vm_compute; intros H;
    first [discriminate H | reflexivity].
Qed.

Lemma rep_match_bounds (k : class) (rest : string -> option nat) (s : string) :
  forall (lo : nat) (hi : option nat) (n : nat),
    rep_match k lo hi rest s = Some n ->
    exists j r s',
      n = j + r
      /\ lo <= j
      /\ (forall h, hi = Some h -> j <= h)
      /\ j <= String.length s
      /\ rest s' = Some r.
Proof.
  induction s as [|a s' IH]; intros lo hi n Hm; cbn [rep_match] in Hm.
  - destruct (Nat.eqb_spec lo 0) as [->|]; [|discriminate].
    exists 0, n, EmptyString. repeat split; auto; lia.
  - assert (Hstop : (if Nat.eqb lo 0 then rest (String a s') else None) = Some n ->
                    exists j r s0,
                      n = j + r /\ lo <= j /\ (forall h, hi = Some h -> j <= h)
                      /\ j <= String.length (String a s') /\ rest s0 = Some r).
    { destruct (Nat.eqb_spec lo 0) as [->|]; [|discriminate]. intros Hr.
      exists 0, n, (String a s'). repeat split; auto; lia. }
    destruct (in_class k a && room hi) eqn:Hgo; [|auto].
    destruct (rep_match k (pred lo) (pred <$> hi) rest s') as [n'|] eqn:Hrec; [|auto].
    injection Hm as <-.
    destruct (IH _ _ _ Hrec) as (j & r & s0 & -> & Hlo & Hhi & Hlen & Hrest).
    exists (S j), r, s0. repeat split; auto; simpl; try lia.
    intros h ->. apply andb_prop in Hgo as [_ Hroom].
    destruct h as [|h]; [discriminate Hroom|].
    specialize (Hhi h eq_refl). lia.
Qed.

Lemma length_prefix (n : nat) (s : string) :
  n <= String.length s -> String.length (String.substring 0 n s) = n.
Proof.
  revert s. induction n as [|n IH]; intros s Hn.
  - by destruct s.
  - destruct s as [|a s]; simpl in *; [lia|]. rewrite IH; lia.
Qed.

(** Every match that [finditer] reports is a match of the pattern at some
    suffix of the text, and its [group(0)] is the matched prefix of that
    suffix. *)
Lemma scan_sound (p : pattern) (s : string) :
  forall (pos skip : nat) (m : rmatch),
    m ∈ scan p s pos skip ->
    exists s' n, match_here p s' = Some n /\ group0 m = String.substring 0 n s'.
Proof.
  induction s as [|a s IH]; intros pos skip m Hm.
  - destruct skip; cbn [scan] in Hm; [|by apply elem_of_nil in Hm].
    destruct (match_here p EmptyString) as [n|] eqn:Hp;
      [|by apply elem_of_nil in Hm].
    apply list_elem_of_singleton in Hm as ->. eauto.
  - destruct skip; cbn [scan] in Hm; [|by eapply IH].
    destruct (match_here p (String a s)) as [n|] eqn:Hp; [|by eapply IH].
    apply elem_of_cons in Hm as [->|Hm]; [eauto | by eapply IH].
Qed.

Lemma handle_match (s : string) (n : nat) :
  match_here handle_pattern s = Some n ->
  exists h, String.substring 0 n s = String "@" h
            /\ 5 <= String.length h <= 32.
Proof.
  unfold handle_pattern.
  destruct s as [|a s]; cbn [match_here lit_then]; [discriminate|].
  destruct (lit_match "@" a) eqn:Ha; [|discriminate].
  apply lit_match_at in Ha as ->.
  destruct (rep_match Word 5 (Some 32) (fun _ => Some 0) s) as [n'|] eqn:Hrep;
    cbn [fmap option_fmap option_map]; [|discriminate].
  intros [= <-].
  destruct (rep_match_bounds _ _ _ _ _ _ Hrep)
    as (j & r & s0 & -> & Hlo & Hhi & Hlen & [= <-]).
  specialize (Hhi 32 eq_refl). rewrite Nat.add_0_r.
  exists (String.substring 0 j s). split; [reflexivity|].
  rewrite length_prefix by exact Hlen. lia.
Qed.

(** *** The records *)

Lemma foldl_append_match (message_id : Z) (chat_id : option Z) (context : string)
    (ms : list rmatch) (acc : list LinkRecord) (t : nat) :
  foldl (append_match isoformat message_id chat_id context) (acc, t) ms
  = (acc ++ imap (fun i m =>
                    mkLink (group0 m) message_id chat_id context
                      (Some (span_Z (span m))) (isoformat (t + i))) ms,
     t + length ms).
Proof.
  revert acc t. induction ms as [|m rest IH]; intros acc t.
  - simpl. by rewrite app_nil_r, Nat.add_0_r.
  - cbn [foldl append_match]. rewrite IH. simpl.
    rewrite <- app_assoc, Nat.add_0_r. f_equal; [|lia].
    simpl. do 2 f_equal. apply imap_ext. intros i x _. simpl.
    do 2 f_equal. lia.
Qed.

Lemma foldl_nested {A B C} (g : A -> C -> A) (h : B -> list C) (l : list B) (a : A) :
  foldl (fun acc p => foldl g acc (h p)) a l = foldl g a (l ≫= h).
Proof.
  revert a. induction l as [|p rest IH]; intros a; [done|].
  rewrite bind_cons, foldl_app. cbn [foldl]. apply IH.
Qed.

Lemma no_match_in_empty_text (p : pattern) :
  p ∈ link_patterns -> finditer p "" = [].
Proof.
  unfold link_patterns. rewrite !elem_of_cons, elem_of_nil.
  intros [->|[->|[->|[->|[->|[]]]]]]; reflexivity.
Qed.

(** C7. The scanner returns one record for every match of every one of the
    five patterns, pattern by pattern and in order of position, without
    removing anything; on "https://t.me/foo" that is one record from the
    prefixed pattern and one from the bare pattern; and every match of the
    handle pattern is an at sign followed by a handle of 5 to 32
    characters. *)
Theorem scanner_records_every_match (text : string) (message_id : Z)
    (chat_id : option Z) (context : string) (t : nat) :
  extract_links_from_text isoformat text message_id chat_id context t
  = (imap (fun i m =>
             mkLink (group0 m) message_id chat_id context
               (Some (span_Z (span m))) (isoformat (t + i)))
       (link_patterns ≫= fun p => finditer p text),
     t + length (link_patterns ≫= fun p => finditer p text))
  /\ length (extract_links_from_text isoformat text message_id chat_id context t).1
     = length (finditer prefixed_pattern text)
       + length (finditer bare_pattern text)
       + length (finditer handle_pattern text)
       + length (finditer joinchat_pattern text)
       + length (finditer deep_link_pattern text)
  /\ link <$> (extract_links_from_text isoformat "https://t.me/foo"
                 message_id chat_id context t).1
     = ["https://t.me/foo"; "t.me/foo"]
  /\ forall m, m ∈ finditer handle_pattern text ->
       exists h, group0 m = String "@" h /\ 5 <= String.length h <= 32.
Proof.
  assert (Hall :
    extract_links_from_text isoformat text message_id chat_id context t
    = (imap (fun i m =>
               mkLink (group0 m) message_id chat_id context
                 (Some (span_Z (span m))) (isoformat (t + i)))
         (link_patterns ≫= fun p => finditer p text),
       t + length (link_patterns ≫= fun p => finditer p text))).
  { unfold extract_links_from_text.
    destruct (String.eqb_spec text "") as [->|_].
    - simpl. by rewrite Nat.add_0_r.
    - rewrite (foldl_nested (append_match isoformat message_id chat_id context)
                 (fun p => finditer p text)).
      by rewrite foldl_append_match. }
  split; [exact Hall|]. split; [|split].
  - rewrite Hall. cbn [fst]. rewrite length_imap.
    unfold link_patterns. rewrite !bind_cons, !length_app. simpl. lia.
  - reflexivity.
  - intros m Hm. unfold finditer in Hm.
    apply scan_sound in Hm as (s' & n & Hmatch & ->).
    by apply handle_match.
Qed.

End ScannerFacts.

(** * Further properties *)

Import Spec.

(** ** The filter, all selectors *)

Section FilterCoverage.

Lemma filter_messages_by_type_filter (messages : list Message) (media_type : string) :
  filter_messages_by_type messages media_type
  = if String.eqb (lower media_type) "all" then messages
    else filter (fun m => Is_true (keeps media_type m)) messages.
Proof.
  unfold filter_messages_by_type.
  destruct (String.eqb (lower media_type) "all"); [reflexivity|].
  by rewrite filter_loop_app.
Qed.

(** X1. Whatever the selector, the filter returns a sublist of its input
    (no message is invented, duplicated or reordered), and filtering the
    result again with the same selector changes nothing. *)
Theorem filter_sublist_and_idempotent (messages : list Message) (media_type : string) :
  filter_messages_by_type messages media_type `sublist_of` messages
  /\ filter_messages_by_type (filter_messages_by_type messages media_type) media_type
     = filter_messages_by_type messages media_type.
Proof.
  rewrite !filter_messages_by_type_filter.
  destruct (String.eqb (lower media_type) "all"); [done|].
  split; [apply sublist_filter|].
  apply list_filter_filter_l. auto.
Qed.

Lemma keeps_images (m : Message) : Is_true (keeps "images" m) <-> is_Some (photo m).
Proof.
  unfold keeps. simpl. destruct (photo m); simpl.
  - split; [eauto | done].
  - split; [done | by intros [? [=]]].
Qed.

Lemma keeps_videos (m : Message) : Is_true (keeps "videos" m) <-> is_Some (video m).
Proof.
  unfold keeps. simpl. destruct (video m); simpl.
  - split; [eauto | done].
  - split; [done | by intros [? [=]]].
Qed.

Lemma keeps_documents (m : Message) :
  Is_true (keeps "documents" m) <-> is_Some (document m).
Proof.
  unfold keeps, document_has_mime. simpl. destruct (document m); simpl.
  - split; [eauto | done].
  - split; [done | by intros [? [=]]].
Qed.

Lemma keeps_zips (m : Message) :
  Is_true (keeps "zips" m) <-> has_mime "application/zip" m.
Proof.
  unfold keeps, has_mime, document_has_mime, opt_str_eqb. simpl.
  destruct (document m) as [d|]; simpl.
  - destruct (mime_type d) as [mt|] eqn:Hm; simpl.
    + destruct (String.eqb_spec mt "application/zip") as [->|Hne]; simpl.
      * split; [eauto | done].
      * split; [done | intros (d' & [= <-] & Hd); congruence].
    + split; [done | intros (d' & [= <-] & Hd); congruence].
  - split; [done | intros (d' & [=] & _)].
Qed.

(** X2. The selectors "images", "videos", "zips" and "documents" return, in
    the original order, exactly the messages with a photo, with a video,
    with a document of MIME type "application/zip", and with a document. *)
Theorem filter_other_selectors_exact (messages : list Message) :
  filter_messages_by_type messages "images"
  = filter (fun m => is_Some (photo m)) messages
  /\ filter_messages_by_type messages "videos"
     = filter (fun m => is_Some (video m)) messages
  /\ filter_messages_by_type messages "zips"
     = filter (has_mime "application/zip") messages
  /\ filter_messages_by_type messages "documents"
     = filter (fun m => is_Some (document m)) messages.
Proof.
  rewrite !filter_messages_by_type_filter. simpl.
  repeat split; apply list_filter_iff; intros m.
  - apply keeps_images.
  - apply keeps_videos.
  - apply keeps_zips.
  - apply keeps_documents.
Qed.

Lemma lower_char_idempotent (c : ascii) : lower_char (lower_char c) = lower_char c.
Proof. destruct c as [[] [] [] [] [] [] [] []]; vm_compute; reflexivity. Qed.

Lemma lower_idempotent (s : string) : lower (lower s) = lower s.
Proof.
  induction s as [|c s IH]; [done|]. simpl. by rewrite lower_char_idempotent, IH.
Qed.

(** X3. The selector is read without regard to case: a selector and its
    lower-case form select the same messages. *)
Theorem filter_ignores_case (messages : list Message) (media_type : string) :
  filter_messages_by_type messages media_type
  = filter_messages_by_type messages (lower media_type).
Proof.
  rewrite !filter_messages_by_type_filter, lower_idempotent.
  destruct (String.eqb (lower media_type) "all"); [done|].
  apply list_filter_iff. intros m. unfold keeps.
  by rewrite lower_idempotent.
Qed.

(** X4. What "pdfs" and "zips" select is part of what "documents" selects,
    and no message is selected by both "pdfs" and "zips". *)
Theorem pdfs_and_zips_within_documents (messages : list Message) :
  filter_messages_by_type messages "pdfs"
    `sublist_of` filter_messages_by_type messages "documents"
  /\ filter_messages_by_type messages "zips"
       `sublist_of` filter_messages_by_type messages "documents"
  /\ forall m, m ∈ filter_messages_by_type messages "pdfs" ->
               m ∉ filter_messages_by_type messages "zips".
Proof.
  rewrite !filter_messages_by_type_filter. simpl.
  assert (Hdoc : forall t m, (t = "pdfs" \/ t = "zips") ->
            Is_true (keeps t m) -> Is_true (keeps "documents" m)).
  { intros t m [-> | ->] Hk; apply keeps_documents.
    - apply keeps_pdfs in Hk as (d & -> & _). eauto.
    - apply keeps_zips in Hk as (d & -> & _). eauto. }
  split; [|split].
  - rewrite <- (list_filter_filter_l (fun m => Is_true (keeps "pdfs" m))
                 (fun m => Is_true (keeps "documents" m)) messages)
      by (intros m; apply Hdoc; by left).
    apply sublist_filter.
  - rewrite <- (list_filter_filter_l (fun m => Is_true (keeps "zips" m))
                 (fun m => Is_true (keeps "documents" m)) messages)
      by (intros m; apply Hdoc; by right).
    apply sublist_filter.
  - intros m Hp Hz.
    apply list_elem_of_filter in Hp as [Hp _].
    apply list_elem_of_filter in Hz as [Hz _].
    apply keeps_pdfs in Hp as (d & Hd & Hm).
    apply keeps_zips in Hz as (d' & Hd' & Hm').
    congruence.
Qed.

End FilterCoverage.

(** ** The ledger across sessions *)

Section LedgerCoverage.

Variable isoformat : nat -> string.

(** X5. Resume: when the state file can be written, the set that a new
    [DownloadState] loads after [mark_downloaded] is exactly the old set
    plus the new id, whatever was on disk before. *)
Theorem marked_ids_survive_restart (s : state) (file_id : string) :
  writable s = true ->
  exists s1 s2,
    mark_downloaded isoformat s file_id = Return s1
    /\ init s1 = Return s2
    /\ downloaded_files s2 = {[AStr file_id]} ∪ downloaded_files s
    /\ log s2 = log s ++ [InfoLoaded (size ({[AStr file_id]} ∪ downloaded_files s))].
Proof.
  intros Hw.
  destruct (mark_downloaded_returns isoformat s file_id)
    as (s1 & Hmark & Hd & _ & _ & Hdisk).
  rewrite Hw in Hdisk. destruct Hdisk as [Hdisk Hlog].
  exists s1. unfold init, load_state, load_state_try. simpl.
  rewrite Hdisk, saved_state_loads_back. simpl.
  eexists. split; [exact Hmark|]. split; [reflexivity|]. simpl.
  by rewrite Hd, Hlog.
Qed.

(** X6. After [mark_downloaded(id)], [is_downloaded(id)] is true, and the
    answer for every other id is what it was, whether or not the state file
    could be written. *)
Theorem marked_id_is_downloaded (s : state) (file_id : string) :
  exists s1,
    mark_downloaded isoformat s file_id = Return s1
    /\ is_downloaded s1 file_id = true
    /\ forall other, other <> file_id ->
         is_downloaded s1 other = is_downloaded s other.
Proof.
  destruct (mark_downloaded_returns isoformat s file_id) as (s1 & Hmark & Hd & _).
  exists s1. split; [exact Hmark|]. unfold is_downloaded. rewrite Hd. split.
  - apply bool_decide_eq_true_2. set_solver.
  - intros other Hne. apply bool_decide_ext. set_solver.
Qed.

End LedgerCoverage.

Lemma marked_ids_survive_restart_witness :
  writable MoreSamples.one_id_state = true
  /\ exists s1 s2,
       mark_downloaded Samples.isoformat MoreSamples.one_id_state "photo_2_102"
       = Return s1
       /\ init s1 = Return s2
       /\ downloaded_files s2
          = {[AStr "photo_2_102"]} ∪ downloaded_files MoreSamples.one_id_state
       /\ log s2
          = log MoreSamples.one_id_state
            ++ [InfoLoaded (size ({[AStr "photo_2_102"]}
                                  ∪ downloaded_files MoreSamples.one_id_state))].
Proof.
  split; [reflexivity|].
  exact (marked_ids_survive_restart Samples.isoformat MoreSamples.one_id_state
           "photo_2_102" eq_refl).
Defined.

(** ** File ids *)

Section FileIdCoverage.

Lemma str_of_int_inj (a b : Z) : str_of_int a = str_of_int b -> a = b.
Proof.
  unfold str_of_int. intros H.
  assert (Hparse : forall z,
            NilZero.int_of_string (NilZero.string_of_int (Z.to_int z))
            = Some (Z.to_int z)).
  { intros z. apply NilZero.isi; destruct z; simpl; try discriminate;
      intros [= E]; by apply DecimalPos.Unsigned.to_uint_nonnil in E. }
  apply DecimalZ.to_int_inj.
  pose proof (Hparse a) as Ha. rewrite H, Hparse in Ha. by injection Ha.
Qed.

Lemma digits_no_underscore (d : Decimal.uint) (c : ascii) :
  In c (list_ascii_of_string (NilEmpty.string_of_uint d)) -> c <> "_"%char.
Proof.
  induction d; simpl; try (intros [<-|H]; [discriminate | by apply IHd]).
  intros [].
Qed.

Lemma str_of_int_no_underscore (z : Z) (c : ascii) :
  In c (list_ascii_of_string (str_of_int z)) -> c <> "_"%char.
Proof.
  assert (Hu : forall d c', In c' (list_ascii_of_string (NilZero.string_of_uint d)) ->
                            c' <> "_"%char).
  { intros d c'. destruct d; try apply (digits_no_underscore _ c').
    simpl. intros [<-|[]]. discriminate. }
  unfold str_of_int. destruct (Z.to_int z) as [d|d]; simpl.
  - apply Hu.
  - intros [<-|H]; [discriminate | by apply (Hu d)].
Qed.

Lemma split_at_underscore (a a' b b' : string) :
  (forall c, In c (list_ascii_of_string a) -> c <> "_"%char) ->
  (forall c, In c (list_ascii_of_string a') -> c <> "_"%char) ->
  a +:+ String "_" b = a' +:+ String "_" b' ->
  a = a' /\ b = b'.
Proof.
  revert a'. induction a as [|x a IH]; intros a' Ha Ha' H; destruct a' as [|x' a'];
    simpl in H.
  - by injection H as ->.
  - injection H as <- _. exfalso. by apply (Ha' "_"%char); [left|].
  - injection H as -> _. exfalso. by apply (Ha "_"%char); [left|].
  - injection H as -> H.
    destruct (IH a') as [-> ->]; [| |exact H|done].
    + intros c Hc. apply Ha. by right.
    + intros c Hc. apply Ha'. by right.
Qed.

Lemma two_numbers_inj (a b a' b' : Z) :
  str_of_int a +:+ String "_" (str_of_int b)
  = str_of_int a' +:+ String "_" (str_of_int b') ->
  a = a' /\ b = b'.
Proof.
  intros H. apply split_at_underscore in H as [Ha Hb];
    try apply str_of_int_no_underscore.
  split; by apply str_of_int_inj.
Qed.

(** X7. The file id is an injective encoding: two messages have the same
    file id exactly when the same kind of payload names them (video before
    document before photo), their message ids are equal and the ids of
    those payloads are equal. *)
Theorem get_file_id_injective (m1 m2 : Message) :
  get_file_id m1 = get_file_id m2 <-> payload_key m1 = payload_key m2.
Proof.
  unfold get_file_id, payload_key.
  destruct (video m1), (document m1), (photo m1),
           (video m2), (document m2), (photo m2);
    (split; intros H;
     [ cbn [String.append] in H; try discriminate H;
       repeat (injection H as H);
       first [ apply two_numbers_inj in H as [-> ->]; reflexivity
             | apply str_of_int_inj in H as ->; reflexivity ]
     | try discriminate H; injection H; intros; congruence ]).
Qed.

End FileIdCoverage.

(** ** What a run records and requests *)

Section RunCoverage.

Variable isoformat : nat -> string.
Variable joinpath : string -> string -> string.
Variable renders : description -> bool.
Variable is_dir : string -> bool.
Variable net : Message -> transfer.
Variable folder_path : string.

Local Abbreviation download_batch :=
  (Downloader.download_batch isoformat joinpath renders is_dir net).
Local Abbreviation displayable := (Downloader.displayable renders).
Local Abbreviation request_of := (Spec.request_of joinpath folder_path).

Lemma same_id_same_message (messages : list Message) (m m' : Message) :
  NoDup (get_file_id <$> messages) ->
  m ∈ messages -> m' ∈ messages -> get_file_id m = get_file_id m' -> m = m'.
Proof.
  induction messages as [|x l IH]; intros Hnodup Hm Hm' Heq.
  - by apply elem_of_nil in Hm.
  - rewrite fmap_cons in Hnodup. apply NoDup_cons in Hnodup as [Hx Hl].
    apply elem_of_cons in Hm as [->|Hm]; apply elem_of_cons in Hm' as [->|Hm'].
    + done.
    + exfalso. apply Hx. rewrite Heq. apply list_elem_of_fmap. eauto.
    + exfalso. apply Hx. rewrite <- Heq. apply list_elem_of_fmap. eauto.
    + by apply IH.
Qed.

(** X8. With distinct ids, a positive batch size and descriptions that
    render, a run records in the ledger exactly the messages whose task
    returned True: afterwards the id of a message of the list is in the
    ledger if and only if it was there before or its transfer completed. An
    item whose transfer raised is not recorded, so a later run tries it
    again; nothing is removed and no id from outside the list is added. *)
Theorem run_records_exactly_the_completed (messages : list Message)
    (batch_size : Z) (w : world) :
  (0 < batch_size)%Z ->
  NoDup (get_file_id <$> messages) ->
  (forall m, m ∈ messages -> displayable m = true) ->
  exists st w',
    download_batch messages folder_path batch_size w = Return (st, w')
    /\ ledger w ⊆ ledger w'
    /\ (forall m, m ∈ messages ->
          (AStr (get_file_id m) ∈ ledger w'
           <-> outcome_of net (ledger w) m = RTrue))
    /\ (forall a, a ∈ ledger w' ->
          a ∈ ledger w \/ exists m, m ∈ messages /\ a = AStr (get_file_id m)).
Proof.
  intros Hpos Hnodup Hshow.
  destruct (run_track isoformat joinpath renders is_dir net folder_path
              messages batch_size w Hpos Hnodup Hshow)
    as (st & w' & Hrun & Hl & _).
  exists st, w'. split; [exact Hrun|]. rewrite Hl.
  split; [set_solver|]. split.
  - intros m Hm. rewrite elem_of_union, elem_of_list_to_set, list_elem_of_fmap.
    split.
    + intros [Hin | (m' & Heq & Hm')].
      * unfold outcome_of. by rewrite bool_decide_eq_true_2.
      * apply list_elem_of_filter in Hm' as [Htrue Hm'].
        injection Heq as Heq.
        by rewrite (same_id_same_message messages m m' Hnodup Hm Hm' Heq).
    + intros Htrue. right. exists m. split; [done|].
      by apply list_elem_of_filter.
  - intros a. rewrite elem_of_union, elem_of_list_to_set, list_elem_of_fmap.
    intros [Hin | (m & -> & Hm)]; [by left|].
    right. exists m. split; [|done].
    by apply list_elem_of_filter in Hm as [_ Hm].
Qed.

(** X9. With distinct ids, a positive batch size and descriptions that
    render, a run asks for exactly one transfer for every message whose id
    was not in the ledger (and whose destination name is a string), in the
    order of the list, and for none for a message whose id was in the
    ledger. *)
Theorem run_requests_each_new_item_once (messages : list Message)
    (batch_size : Z) (w : world) :
  (0 < batch_size)%Z ->
  NoDup (get_file_id <$> messages) ->
  (forall m, m ∈ messages -> displayable m = true) ->
  exists st w',
    download_batch messages folder_path batch_size w = Return (st, w')
    /\ requests w' = requests w ++ omap (request_of (ledger w)) messages.
Proof.
  intros Hpos Hnodup Hshow.
  destruct (run_track isoformat joinpath renders is_dir net folder_path
              messages batch_size w Hpos Hnodup Hshow)
    as (st & w' & Hrun & _ & Hr & _).
  by exists st, w'.
Qed.

(** X10. The batch size at its bounds: zero makes [download_batch] raise
    ValueError; a negative one makes it return all-zero stats without
    touching any message, however long the list; and an empty list gives
    all-zero stats for every positive batch size. *)
Theorem download_batch_degenerate_inputs (messages : list Message) (w : world) :
  download_batch messages folder_path 0 w = Raise ValueError
  /\ (forall batch_size, (batch_size < 0)%Z ->
        download_batch messages folder_path batch_size w
        = Return (mkStats 0 0 0, w))
  /\ (forall batch_size, (0 < batch_size)%Z ->
        download_batch [] folder_path batch_size w
        = Return (mkStats 0 0 0, w)).
Proof.
  split; [reflexivity|]. split.
  - intros batch_size Hneg. unfold Downloader.download_batch, py_range.
    destruct (Z.eqb_spec batch_size 0) as [->|_]; [lia|].
    destruct (Z.ltb_spec batch_size 0) as [_|Hge]; [|lia].
    by destruct w.
  - intros batch_size Hpos. unfold Downloader.download_batch.
    rewrite py_range_positive by exact Hpos. simpl.
    rewrite Z.div_small by lia. by destruct w.
Qed.

End RunCoverage.

Section RunExamples.

Import Samples.

Lemma run_records_exactly_the_completed_witness :
  (0 < 2)%Z
  /\ NoDup (get_file_id <$> three_photos)
  /\ (forall m, m ∈ three_photos -> displayable renders m = true)
  /\ exists st w',
       batch_run second_breaks three_photos 2 fresh_world = Return (st, w')
       /\ ledger fresh_world ⊆ ledger w'
       /\ (forall m, m ∈ three_photos ->
             (AStr (get_file_id m) ∈ ledger w'
              <-> outcome_of second_breaks (ledger fresh_world) m = RTrue))
       /\ (forall a, a ∈ ledger w' ->
             a ∈ ledger fresh_world
             \/ exists m, m ∈ three_photos /\ a = AStr (get_file_id m)).
Proof.
  split; [reflexivity|]. split; [exact three_photos_distinct|].
  split; [exact three_photos_displayable|].
  exact (run_records_exactly_the_completed isoformat joinpath renders is_dir
           second_breaks "downloads" three_photos 2 fresh_world eq_refl
           three_photos_distinct three_photos_displayable).
Defined.

Lemma run_requests_each_new_item_once_witness :
  (0 < 2)%Z
  /\ NoDup (get_file_id <$> three_photos)
  /\ (forall m, m ∈ three_photos -> displayable renders m = true)
  /\ exists st w',
       batch_run second_breaks three_photos 2 fresh_world = Return (st, w')
       /\ requests w'
          = ["downloads/photo_1.jpg"; "downloads/photo_2.jpg";
             "downloads/photo_3.jpg"].
Proof.
  split; [reflexivity|]. split; [exact three_photos_distinct|].
  split; [exact three_photos_displayable|].
  exact (run_requests_each_new_item_once isoformat joinpath renders is_dir
           second_breaks "downloads" three_photos 2 fresh_world eq_refl
           three_photos_distinct three_photos_displayable).
Defined.

End RunExamples.

(** ** Where the scanner finds its matches *)

Section ScanCoverage.

Variable isoformat : nat -> string.

Lemma rep_match_le (k : class) (rest : string -> option nat) (s : string) :
  (forall s' r, rest s' = Some r -> r <= String.length s') ->
  forall (lo : nat) (hi : option nat) (n : nat),
    rep_match k lo hi rest s = Some n -> n <= String.length s.
Proof.
  intros Hrest. induction s as [|a s' IH]; intros lo hi n Hm; cbn [rep_match] in Hm.
  - destruct (Nat.eqb lo 0); [by apply Hrest | discriminate].
  - assert (Hstop : (if Nat.eqb lo 0 then rest (String a s') else None) = Some n ->
                    n <= String.length (String a s')).
    { destruct (Nat.eqb lo 0); [apply Hrest | discriminate]. }
    destruct (in_class k a && room hi); [|auto].
    destruct (rep_match k (pred lo) (pred <$> hi) rest s') as [n'|] eqn:Hrec; [|auto].
    injection Hm as <-. apply IH in Hrec. simpl. lia.
Qed.

Lemma lit_then_le (c : ascii) (rest : string -> option nat) (s : string) (n : nat) :
  (forall s' r, rest s' = Some r -> r <= String.length s') ->
  lit_then c rest s = Some n -> 0 < n <= String.length s.
Proof.
  intros Hrest. unfold lit_then. destruct s as [|a s']; [discriminate|].
  destruct (lit_match c a); [|discriminate].
  destruct (rest s') as [r|] eqn:Hr; [|discriminate].
  intros [= <-]. apply Hrest in Hr. simpl. lia.
Qed.

Lemma match_here_le (p : pattern) :
  forall (s : string) (n : nat),
    match_here p s = Some n -> n <= String.length s.
Proof.
  induction p as [|it p' IH]; intros s n Hm; cbn [match_here] in Hm.
  - injection Hm as <-. lia.
  - destruct it as [c|c|k lo hi].
    + by apply lit_then_le in Hm as [_ ?].
    + destruct (lit_then c (match_here p') s) as [n'|] eqn:Hl.
      * injection Hm as <-. by apply lit_then_le in Hl as [_ ?].
      * by apply IH.
    + by eapply rep_match_le.
Qed.

Lemma literal_first_positive (c : ascii) (p : pattern) (s : string) (n : nat) :
  match_here (Lit c :: p) s = Some n -> 0 < n.
Proof.
  cbn [match_here]. intros Hm.
  eapply (lit_then_le c (match_here p) s n); [apply match_here_le | exact Hm].
Qed.

Lemma link_pattern_match_positive (p : pattern) (s : string) (n : nat) :
  p ∈ link_patterns -> match_here p s = Some n -> 0 < n.
Proof.
  unfold link_patterns. rewrite !elem_of_cons, elem_of_nil.
  intros [->|[->|[->|[->|[->|[]]]]]] Hm;
    exact (literal_first_positive _ _ s n Hm).
Qed.

(** Every match that [scan] reports lies in the part of the text it was
    given, past the characters it was told to skip; its [span] says where,
    and its [group(0)] is the text between the two ends. *)
Lemma scan_locates (p : pattern) (s : string) :
  forall (pos skip : nat) (m : rmatch),
    m ∈ scan p s pos skip ->
    exists i n s',
      span m = (pos + i, pos + i + n)
      /\ skip <= i
      /\ i + n <= String.length s
      /\ group0 m = String.substring i n s
      /\ match_here p s' = Some n.
Proof.
  induction s as [|a s IH]; intros pos skip m Hm.
  - destruct skip; cbn [scan] in Hm; [|by apply elem_of_nil in Hm].
    destruct (match_here p EmptyString) as [n|] eqn:Hp;
      [|by apply elem_of_nil in Hm].
    apply list_elem_of_singleton in Hm as ->.
    pose proof (match_here_le _ _ _ Hp) as Hn.
    exists 0, n, EmptyString. simpl in *. rewrite Nat.add_0_r.
    repeat split; auto; lia.
  - assert (Hrest : forall k, m ∈ scan p s (S pos) k ->
              exists i n s',
                span m = (pos + i, pos + i + n) /\ S k <= i
                /\ i + n <= String.length (String a s)
                /\ group0 m = String.substring i n (String a s)
                /\ match_here p s' = Some n).
    { intros k Hk. destruct (IH _ _ _ Hk) as (i & n & s' & Hs & Hi & Hlen & Hg & Hp).
      exists (S i), n, s'. simpl. rewrite Hs, Hg.
      repeat split; auto; try lia; f_equal; lia. }
    destruct skip; cbn [scan] in Hm.
    + destruct (match_here p (String a s)) as [n|] eqn:Hp.
      * apply elem_of_cons in Hm as [->|Hm].
        -- pose proof (match_here_le _ _ _ Hp) as Hn.
           exists 0, n, (String a s). cbn [span group0]. rewrite Nat.add_0_r.
           repeat split; auto; lia.
        -- destruct (Hrest _ Hm) as (i & n' & s' & ? & ? & ? & ? & ?).
           exists i, n', s'. repeat split; auto; lia.
      * destruct (Hrest _ Hm) as (i & n' & s' & ? & ? & ? & ? & ?).
        exists i, n', s'. repeat split; auto; lia.
    + destruct (Hrest _ Hm) as (i & n' & s' & ? & ? & ? & ? & ?).
      exists i, n', s'. repeat split; auto; lia.
Qed.

Lemma extract_links_from_text_records (text : string) (message_id : Z)
    (chat_id : option Z) (context : string) (t : nat) :
  extract_links_from_text isoformat text message_id chat_id context t
  = (imap (fun i m =>
             mkLink (group0 m) message_id chat_id context
               (Some (span_Z (span m))) (isoformat (t + i)))
       (link_patterns ≫= fun p => finditer p text),
     t + length (link_patterns ≫= fun p => finditer p text)).
Proof.
  unfold extract_links_from_text.
  destruct (String.eqb_spec text "") as [->|_].
  - simpl. by rewrite Nat.add_0_r.
  - rewrite (foldl_nested (append_match isoformat message_id chat_id context)
               (fun p => finditer p text)).
    by rewrite foldl_append_match.
Qed.

(** X11. Every record that the scanner returns for a text carries the
    caller's message id, chat id and context, and a position [(a, b)] with
    [a < b <= len(text)] such that the recorded link is exactly
    [text[a:b]]. *)
Theorem text_records_locate_their_link (text : string) (message_id : Z)
    (chat_id : option Z) (context : string) (t : nat) :
  Forall (fun r =>
            LinkExtractor.message_id r = message_id
            /\ link_chat_id r = chat_id
            /\ LinkExtractor.context r = context
            /\ exists a b,
                 position r = Some (Z.of_nat a, Z.of_nat b)
                 /\ a < b <= String.length text
                 /\ link r = String.substring a (b - a) text)
    (extract_links_from_text isoformat text message_id chat_id context t).1.
Proof.
  rewrite extract_links_from_text_records. cbn [fst].
  apply Forall_forall. intros r Hr.
  apply elem_of_lookup_imap in Hr as (i & m & -> & Hi).
  apply list_elem_of_lookup_2 in Hi.
  apply list_elem_of_bind in Hi as (p & Hm & Hp).
  unfold finditer in Hm.
  apply scan_locates in Hm as (j & n & s' & Hspan & _ & Hlen & Hg & Hmatch).
  apply (link_pattern_match_positive p s' n Hp) in Hmatch.
  simpl in Hspan. cbn [LinkExtractor.message_id link_chat_id LinkExtractor.context
                       position link].
  repeat split.
  exists j, (j + n). rewrite Hspan. unfold span_Z. cbn [fst snd].
  split; [reflexivity|]. split; [lia|].
  rewrite Hg. f_equal. lia.
Qed.

Lemma scan_sorted (p : pattern) (s : string) :
  forall pos skip,
    StronglySorted (fun m1 m2 => (span m1).2 <= (span m2).1) (scan p s pos skip).
Proof.
  induction s as [|a s IH]; intros pos skip.
  - destruct skip; cbn [scan]; [|constructor].
    destruct (match_here p EmptyString); repeat constructor.
  - destruct skip; cbn [scan]; [|apply IH].
    destruct (match_here p (String a s)) as [n|] eqn:Hp; [|apply IH].
    constructor; [apply IH|].
    apply Forall_forall. intros m Hm.
    apply scan_locates in Hm as (i & n' & s' & Hs & Hi & _).
    rewrite Hs. simpl. lia.
Qed.

(** X12. For every pattern and text, the matches that [finditer] reports
    come in order of position and do not overlap: each match ends no later
    than the next one starts, and lies within the text. *)
Theorem finditer_ordered_without_overlap (p : pattern) (text : string) :
  StronglySorted (fun m1 m2 => (span m1).2 <= (span m2).1) (finditer p text)
  /\ Forall (fun m => (span m).1 <= (span m).2 <= String.length text)
       (finditer p text).
Proof.
  split; [apply scan_sorted|].
  apply Forall_forall. intros m Hm. unfold finditer in Hm.
    apply scan_locates in Hm as (i & n & s' & Hs & _ & Hlen & _).
    rewrite Hs. simpl. lia.
Qed.

End ScanCoverage.

(** ** Entities, buttons and whole messages *)

Section MessageCoverage.

Variable isoformat : nat -> string.

(** A loop that appends at most one record per element, reading the clock
    once per record. *)
Lemma foldl_emit {A B} (g : A -> option B) (mk : nat -> B -> LinkRecord)
    (step : list LinkRecord * nat -> A -> list LinkRecord * nat) :
  (forall acc t x,
     step (acc, t) x
     = match g x with
       | Some y => (acc ++ [mk t y], S t)
       | None => (acc, t)
       end) ->
  forall (l : list A) (acc : list LinkRecord) (t : nat),
    foldl step (acc, t) l
    = (acc ++ imap (fun i y => mk (t + i) y) (omap g l), t + length (omap g l)).
Proof.
  intros Hstep. induction l as [|x l IH]; intros acc t.
  - simpl. by rewrite app_nil_r, Nat.add_0_r.
  - cbn [foldl]. rewrite Hstep, omap_cons_list.
    destruct (g x) as [y|]; rewrite IH; simpl; [|done].
    rewrite <- app_assoc, Nat.add_0_r. f_equal; [|lia].
    simpl. do 2 f_equal. apply imap_ext. intros i z _. simpl. f_equal. lia.
Qed.

Lemma append_entity_emits (msg : Message) (acc : list LinkRecord) (t : nat)
    (e : MessageEntity) :
  append_entity isoformat msg (acc, t) e
  = match entity_link e with
    | Some x =>
        (acc ++ [mkLink x.1 (id msg) (chat_id msg) "entity" x.2 (isoformat t)],
         S t)
    | None => (acc, t)
    end.
Proof.
  unfold append_entity, entity_link, nonempty.
  destruct (is_url_entity e); [|done].
  destruct (url e) as [u|]; [|done].
  by destruct (String.eqb u "").
Qed.

Lemma append_button_emits (msg : Message) (acc : list LinkRecord) (t : nat)
    (b : Button) :
  append_button isoformat msg (acc, t) b
  = match button_link b with
    | Some u =>
        (acc ++ [mkLink u (id msg) (chat_id msg) "button" None (isoformat t)],
         S t)
    | None => (acc, t)
    end.
Proof. by destruct b. Qed.

Lemma entity_records (msg : Message) (t : nat) :
  extract_links_from_entities isoformat msg t
  = (imap (fun i x =>
             mkLink x.1 (id msg) (chat_id msg) "entity" x.2 (isoformat (t + i)))
       (omap entity_link (default [] (entities msg))),
     t + length (omap entity_link (default [] (entities msg)))).
Proof.
  unfold extract_links_from_entities.
  destruct (entities msg) as [[|e es]|]; cbn [default];
    [simpl; by rewrite Nat.add_0_r | | simpl; by rewrite Nat.add_0_r].
  by rewrite (foldl_emit entity_link
                (fun t x => mkLink x.1 (id msg) (chat_id msg) "entity" x.2
                              (isoformat t)) _ (append_entity_emits msg)).
Qed.

Lemma button_records (msg : Message) (t : nat) :
  extract_links_from_reply_markup isoformat msg t
  = (imap (fun i u =>
             mkLink u (id msg) (chat_id msg) "button" None (isoformat (t + i)))
       (omap button_link (default [] (reply_markup msg ≫= rows) ≫= buttons)),
     t + length (omap button_link
                   (default [] (reply_markup msg ≫= rows) ≫= buttons))).
Proof.
  unfold extract_links_from_reply_markup.
  destruct (reply_markup msg ≫= rows) as [rs|]; cbn [default];
    [|simpl; by rewrite Nat.add_0_r].
  rewrite (foldl_nested (append_button isoformat msg) buttons).
  by rewrite (foldl_emit button_link
                (fun t u => mkLink u (id msg) (chat_id msg) "button" None
                              (isoformat t)) _ (append_button_emits msg)).
Qed.

(** X13. Entity extraction returns one record for each URL entity with a
    non-empty url, in the order of the entities, with the entity's span
    [(offset, offset + length)] as position; entities of other classes,
    without a url attribute or with an empty url give none. Button
    extraction returns one record for each URL button, row by row, with no
    position. *)
Theorem entity_and_button_records (msg : Message) (t : nat) :
  extract_links_from_entities isoformat msg t
  = (imap (fun i x =>
             mkLink x.1 (id msg) (chat_id msg) "entity" x.2 (isoformat (t + i)))
       (omap entity_link (default [] (entities msg))),
     t + length (omap entity_link (default [] (entities msg))))
  /\ extract_links_from_reply_markup isoformat msg t
     = (imap (fun i u =>
                mkLink u (id msg) (chat_id msg) "button" None (isoformat (t + i)))
          (omap button_link (default [] (reply_markup msg ≫= rows) ≫= buttons)),
        t + length (omap button_link
                      (default [] (reply_markup msg ≫= rows) ≫= buttons))).
Proof. split; [apply entity_records | apply button_records]. Qed.

Lemma Forall_imap_tagged {B} (mk : nat -> B -> LinkRecord) (P : LinkRecord -> Prop)
    (l : list B) :
  (forall i y, P (mk i y)) -> Forall P (imap mk l).
Proof.
  intros H. apply Forall_forall. intros r Hr.
  apply elem_of_lookup_imap in Hr as (i & y & -> & _). apply H.
Qed.

(** What [process_message] returns: records of this message only, each from
    one of the four contexts, and the clock advanced once per record. *)
Lemma process_message_tagged (msg : Message) (t : nat) :
  Forall (fun r =>
            message_id r = id msg
            /\ link_chat_id r = chat_id msg
            /\ LinkExtractor.context r ∈ contexts)
    (process_message isoformat msg t).1
  /\ (process_message isoformat msg t).2
     = t + length (process_message isoformat msg t).1.
Proof.
  unfold process_message.
  set (r1 := match nonempty (message msg) with
             | Some text =>
                 extract_links_from_text isoformat text (id msg) (chat_id msg) "text" t
             | None => ([], t)
             end).
  assert (H1 : Forall (fun r => message_id r = id msg /\ link_chat_id r = chat_id msg
                                /\ LinkExtractor.context r ∈ contexts) r1.1
               /\ r1.2 = t + length r1.1).
  { unfold r1. destruct (nonempty (message msg)) as [text|]; [|by split].
    rewrite extract_links_from_text_records. cbn [fst snd].
    rewrite length_imap. split; [|done].
    apply Forall_imap_tagged. intros i m. simpl. repeat split.
    unfold contexts. set_solver. }
  destruct r1 as [l1 t1]. destruct H1 as [H1 Ht1]. simpl in H1, Ht1.
  set (r2 := match nonempty (caption msg) with
             | Some text =>
                 extract_links_from_text isoformat text (id msg) (chat_id msg)
                   "caption" t1
             | None => ([], t1)
             end).
  assert (H2 : Forall (fun r => message_id r = id msg /\ link_chat_id r = chat_id msg
                                /\ LinkExtractor.context r ∈ contexts) r2.1
               /\ r2.2 = t1 + length r2.1).
  { unfold r2. destruct (nonempty (caption msg)) as [text|];
      [|split; [done | simpl; lia]].
    rewrite extract_links_from_text_records. cbn [fst snd].
    rewrite length_imap. split; [|done].
    apply Forall_imap_tagged. intros i m. simpl. repeat split.
    unfold contexts. set_solver. }
  destruct r2 as [l2 t2]. destruct H2 as [H2 Ht2]. simpl in H2, Ht2.
  rewrite entity_records, button_records.
  cbn [fst snd]. rewrite !length_app, !length_imap.
  split; [|lia].
  repeat apply Forall_app_2; auto;
    apply Forall_imap_tagged; intros i y; simpl; repeat split;
    unfold contexts; set_solver.
Qed.

(** X14. Every record that [process_message] returns carries the id and
    the chat id of that message and one of the contexts text, caption,
    entity, button; the clock advances by exactly the number of records; and
    a message without text, caption, entities and reply markup gives no
    record. *)
Theorem process_message_tags_its_records (msg : Message) (t : nat) :
  Forall (fun r =>
            message_id r = id msg
            /\ link_chat_id r = chat_id msg
            /\ LinkExtractor.context r ∈ contexts)
    (process_message isoformat msg t).1
  /\ (process_message isoformat msg t).2
     = t + length (process_message isoformat msg t).1
  /\ (message msg = None -> caption msg = None -> entities msg = None ->
      reply_markup msg = None ->
      process_message isoformat msg t = ([], t)).
Proof.
  destruct (process_message_tagged msg t) as [Htag Hclock].
  split; [exact Htag|]. split; [exact Hclock|].
  intros Hm Hc He Hr. unfold process_message, extract_links_from_entities,
    extract_links_from_reply_markup.
  by rewrite Hm, Hc, He, Hr.
Qed.

End MessageCoverage.

(** ** The report, context by context *)

Section ReportCoverage.

Variable isoformat : nat -> string.

Lemma bump_lookup (types : gmap string nat) (l : LinkRecord) (c : string) :
  bump types l !! c
  = if decide (LinkExtractor.context l = c)
    then Some (default 0 (types !! c) + 1)
    else types !! c.
Proof.
  unfold bump. rewrite lookup_insert.
  destruct (decide (LinkExtractor.context l = c)) as [->|]; done.
Qed.

Lemma count_context_cons (c : string) (l : LinkRecord) (ls : list LinkRecord) :
  count_context c (l :: ls)
  = (if decide (LinkExtractor.context l = c) then 1 else 0) + count_context c ls.
Proof.
  unfold count_context. rewrite filter_cons.
  by destruct (decide (LinkExtractor.context l = c)).
Qed.

Lemma foldl_bump_lookup (ls : list LinkRecord) (c : string) :
  forall types : gmap string nat,
    foldl bump types ls !! c
    = match types !! c with
      | Some v => Some (v + count_context c ls)
      | None =>
          if decide (count_context c ls = 0) then None
          else Some (count_context c ls)
      end.
Proof.
  induction ls as [|l rest IH]; intros types.
  - unfold count_context. simpl. destruct (types !! c); [f_equal; lia | done].
  - cbn [foldl]. rewrite IH, bump_lookup, count_context_cons.
    destruct (decide (LinkExtractor.context l = c)) as [Hc|Hc].
    + destruct (types !! c) as [v|]; simpl.
      * f_equal. lia.
      * try rewrite decide_False by lia. f_equal; lia.
    + destruct (types !! c) as [v|]; simpl; [done|].
      destruct (decide (count_context c rest = 0)); done.
Qed.

Lemma size_list_to_set_le (l : list string) :
  size (list_to_set l : gset string) <= length l.
Proof.
  rewrite size_list_to_set_distinct.
  induction l as [|x l IH]; [done|]. simpl.
  destruct (decide_rel elem_of x l); simpl; lia.
Qed.

(** What the loop over the messages keeps true of its accumulators. *)
Lemma visit_facts (everyone : list Message) (messages : list Message) (a : acc) :
  (forall msg, msg ∈ messages -> msg ∈ everyone) ->
  acc_types a = foldl bump ∅ (acc_links a) ->
  Forall (fun r => exists msg,
            msg ∈ everyone /\ message_id r = id msg
            /\ link_chat_id r = chat_id msg
            /\ LinkExtractor.context r ∈ contexts) (acc_links a) ->
  acc_types (foldl (visit isoformat) a messages)
  = foldl bump ∅ (acc_links (foldl (visit isoformat) a messages))
  /\ Forall (fun r => exists msg,
               msg ∈ everyone /\ message_id r = id msg
               /\ link_chat_id r = chat_id msg
               /\ LinkExtractor.context r ∈ contexts)
       (acc_links (foldl (visit isoformat) a messages))
  /\ acc_links a `prefix_of` acc_links (foldl (visit isoformat) a messages).
Proof.
  revert a. induction messages as [|msg rest IH]; intros a Hin Htypes Hprov.
  - simpl. by repeat split.
  - cbn [foldl].
    destruct (process_message_tagged isoformat msg (acc_clock a)) as [Htag _].
    destruct (IH (visit isoformat a msg)) as (H1 & H2 & H3).
    + intros m Hm. apply Hin. by right.
    + unfold visit.
      destruct (process_message isoformat msg (acc_clock a)) as [ls t'].
      simpl. by rewrite foldl_app, Htypes.
    + unfold visit.
      destruct (process_message isoformat msg (acc_clock a)) as [ls t'].
      simpl in *. apply Forall_app_2; [exact Hprov|].
      eapply Forall_impl; [exact Htag|].
      intros r (? & ? & ?). exists msg. split; [apply Hin; left | done].
    + repeat split; auto. etrans; [|exact H3].
      unfold visit.
      destruct (process_message isoformat msg (acc_clock a)) as [ls t'].
      simpl. by apply prefix_app_r.
Qed.

(** X15. In the report, the entry of [link_types] for a context is exactly
    the number of collected records with that context, and a context
    without records has no entry. *)
Theorem link_types_counts_each_context (messages : list Message) (t : nat)
    (c : string) :
  link_types (extract_links_from_channel isoformat messages t) !! c
  = if decide (count_context c
                 (links (extract_links_from_channel isoformat messages t)) = 0)
    then None
    else Some (count_context c
                 (links (extract_links_from_channel isoformat messages t))).
Proof.
  unfold extract_links_from_channel. cbn [link_types links].
  destruct (visit_facts messages messages (mkAcc 0 0 [] ∅ (S t)))
    as (Htypes & _); [done | done | constructor |].
  rewrite Htypes, foldl_bump_lookup. by rewrite lookup_empty.
Qed.

(** X16. Every record of the report comes from one of the messages
    processed (it carries that message's id and chat id) and from one of the
    contexts text, caption, entity, button; only those contexts occur as
    keys of [link_types]; and [unique_links] never exceeds
    [total_links_found]. *)
Theorem report_records_come_from_messages (messages : list Message) (t : nat) :
  Forall (fun r => exists msg,
            msg ∈ messages /\ message_id r = id msg
            /\ link_chat_id r = chat_id msg
            /\ LinkExtractor.context r ∈ contexts)
    (links (extract_links_from_channel isoformat messages t))
  /\ (forall c,
        is_Some (link_types (extract_links_from_channel isoformat messages t) !! c) ->
        c ∈ contexts)
  /\ unique_links (extract_links_from_channel isoformat messages t)
     <= total_links_found (extract_links_from_channel isoformat messages t).
Proof.
  unfold extract_links_from_channel.
  cbn [link_types links unique_links total_links_found].
  destruct (visit_facts messages messages (mkAcc 0 0 [] ∅ (S t)))
    as (Htypes & Hprov & _); [done | done | constructor |].
  destruct (visit_invariant isoformat messages (mkAcc 0 0 [] ∅ (S t)))
    as (Htotal & _); [done | done |].
  split; [exact Hprov|]. split.
  - intros c. rewrite Htypes, foldl_bump_lookup, lookup_empty.
    destruct (decide (count_context c _ = 0)) as [|Hpos]; [by intros [? [=]]|].
    intros _. unfold count_context in Hpos.
    destruct (filter _ _) as [|r rs] eqn:Hf; [done|].
    assert (Hr : r ∈ filter (fun l => LinkExtractor.context l = c)
                   (acc_links (foldl (visit isoformat) (mkAcc 0 0 [] ∅ (S t)) messages)))
      by (rewrite Hf; left).
    apply list_elem_of_filter in Hr as [<- Hr].
    rewrite Forall_forall in Hprov.
    by destruct (Hprov r Hr) as (? & ? & ? & ? & ?).
  - rewrite Htotal. etrans; [apply size_list_to_set_le|].
    by rewrite length_fmap.
Qed.

(** X17. Processing further messages only appends: the records collected
    from a list of messages are a prefix of those collected from any longer
    list that starts with it, and neither [total_links_found] nor
    [unique_links] decreases. *)
Theorem report_only_grows (first more : list Message) (t : nat) :
  links (extract_links_from_channel isoformat first t)
    `prefix_of` links (extract_links_from_channel isoformat (first ++ more) t)
  /\ total_links_found (extract_links_from_channel isoformat first t)
     <= total_links_found (extract_links_from_channel isoformat (first ++ more) t)
  /\ unique_links (extract_links_from_channel isoformat first t)
     <= unique_links (extract_links_from_channel isoformat (first ++ more) t).
Proof.
  unfold extract_links_from_channel.
  cbn [links unique_links total_links_found].
  rewrite foldl_app.
  set (a1 := foldl (visit isoformat) (mkAcc 0 0 [] ∅ (S t)) first).
  destruct (visit_invariant isoformat first (mkAcc 0 0 [] ∅ (S t)))
    as (Ht1 & Hs1 & _); [done | done |]. fold a1 in Ht1, Hs1.
  destruct (visit_invariant isoformat more a1 Ht1 Hs1) as (Ht2 & _).
  assert (Hpre : acc_links a1 `prefix_of`
                   acc_links (foldl (visit isoformat) a1 more)).
  { clear. generalize a1. induction more as [|msg rest IH]; intros a; [done|].
    cbn [foldl]. etrans; [|apply IH]. unfold visit.
    destruct (process_message isoformat msg (acc_clock a)). simpl.
    by apply prefix_app_r. }
  split; [exact Hpre|]. destruct Hpre as [k Hk].
  split.
  - rewrite Ht1, Ht2, Hk, length_app. lia.
  - apply subseteq_size. rewrite Hk, fmap_app. set_solver.
Qed.

End ReportCoverage.

(** ** The shapes of a ledger file *)

Section LedgerFileCoverage.

Lemma set_of_items_strings (l : list string) :
  set_of_items (JStr <$> l) = Return (list_to_set (AStr <$> l)).
Proof.
  induction l as [|x rest IH]; [done|].
  rewrite !fmap_cons. cbn [set_of_items hashable Py.bind]. by rewrite IH.
Qed.

(** X18. What [load_state] reads from a JSON document: an object whose
    "downloaded_files" is a list of strings gives the set of those strings,
    whatever their order and repetitions and whatever other keys there
    are; an object without that key gives the empty set; a document that is
    not an object raises AttributeError, and a "downloaded_files" that is
    null, a number or a boolean raises TypeError (both end as a warning in
    [load_state]). *)
Theorem ledger_file_shapes (pairs : list (string * json)) (l : list string) :
  (assoc_last "downloaded_files" pairs = Some (JArr (JStr <$> l)) ->
   ids_of (JObj pairs) = Return (list_to_set (AStr <$> l)))
  /\ (assoc_last "downloaded_files" pairs = None ->
      ids_of (JObj pairs) = Return ∅)
  /\ (forall data, (forall ps, data <> JObj ps) ->
      ids_of data = Raise AttributeError)
  /\ (forall v, assoc_last "downloaded_files" pairs = Some v ->
      (v = JNull \/ (exists b, v = JBool b) \/ (exists n, v = JInt n)) ->
      ids_of (JObj pairs) = Raise TypeError).
Proof.
  unfold ids_of, dict_get. repeat split.
  - intros ->. simpl. apply set_of_items_strings.
  - intros ->. reflexivity.
  - intros data Hno. destruct data; try reflexivity. by destruct (Hno pairs0).
  - intros v -> [-> | [[b ->] | [n ->]]]; reflexivity.
Qed.

End LedgerFileCoverage.

(** The sample ledger file loads as the set of its two distinct ids. *)
Lemma ledger_file_loads :
  ids_of (JObj MoreSamples.ledger_file)
  = Return {[AStr "photo_1_101"; AStr "doc_2_202"]}.
Proof. vm_compute. reflexivity. Qed.

(** ** Placeholder names *)

Section PlaceholderCoverage.

Lemma synthesized_media_name_is_clean (message : Message) :
  is_placeholder (NameStr ("media_" +:+ str_of_int (id message))) = false.
Proof. reflexivity. Qed.

(** X19. The only way for a placeholder (a name that is not a string or
    that starts with "<telethon.tl.custom") to become the destination name
    is through [message.file.name]: when that attribute is absent, empty or
    itself no placeholder, the destination name is a proper string. *)
Theorem placeholder_only_from_file_name (message : Message) :
  (forall n, file message ≫= name = Some n -> is_placeholder n = false) ->
  is_placeholder (destination_name message) = false.
Proof.
  intros Hfile. unfold destination_name.
  destruct (is_placeholder (get_file_name message)) eqn:Hp; [|exact Hp].
  unfold fallback_name, truthy.
  destruct (file message ≫= name) as [[s|]|] eqn:Hn; simpl.
  - destruct (String.eqb s ""); simpl; [reflexivity|]. by apply (Hfile (NameStr s)).
  - by apply (Hfile NameObject).
  - reflexivity.
Qed.

End PlaceholderCoverage.

Lemma placeholder_only_from_file_name_witness :
  (forall n, file (Samples.placeholder_message None) ≫= name = Some n ->
             is_placeholder n = false)
  /\ is_placeholder (destination_name (Samples.placeholder_message None)) = false.
Proof.
  assert (H : forall n, file (Samples.placeholder_message None) ≫= name = Some n ->
                        is_placeholder n = false) by (intros n [=]).
  split; [exact H|].
  exact (placeholder_only_from_file_name (Samples.placeholder_message None) H).
Defined.

(** ** Resuming after a run *)

Section ResumeCoverage.

Variable isoformat : nat -> string.
Variable joinpath : string -> string -> string.
Variable renders : description -> bool.
Variable is_dir : string -> bool.
Variable folder_path : string.

Local Abbreviation download_batch :=
  (Downloader.download_batch isoformat joinpath renders is_dir).
Local Abbreviation displayable := (Downloader.displayable renders).
Local Abbreviation request_of := (Spec.request_of joinpath folder_path).

Lemma recorded_membership (net : Message -> transfer) (messages : list Message)
    (d : gset atom) (m : Message) :
  NoDup (get_file_id <$> messages) ->
  m ∈ messages ->
  AStr (get_file_id m)
    ∈ d ∪ list_to_set ((fun m => AStr (get_file_id m))
                         <$> filter (fun m => outcome_of net d m = RTrue) messages)
  <-> outcome_of net d m = RTrue.
Proof.
  intros Hnodup Hm.
  rewrite elem_of_union, elem_of_list_to_set, list_elem_of_fmap. split.
  - intros [Hin | (m' & Heq & Hm')].
    + unfold outcome_of. by rewrite bool_decide_eq_true_2.
    + apply list_elem_of_filter in Hm' as [Htrue Hm'].
      injection Heq as Heq.
      by rewrite (same_id_same_message messages m m' Hnodup Hm Hm' Heq).
  - intros Htrue. right. exists m. split; [done|].
    by apply list_elem_of_filter.
Qed.

(** X20. Running the same list a second time, whatever the network does
    and whatever the two batch sizes are, when the descriptions render: the
    second run asks again for exactly the messages whose task did not
    return True in the first run, in list order, under the same path as the
    first run would have used, and for nothing else. *)
Theorem second_run_retries_only_the_failed (net1 net2 : Message -> transfer)
    (messages : list Message) (size1 size2 : Z) (w : world) :
  (0 < size1)%Z -> (0 < size2)%Z ->
  NoDup (get_file_id <$> messages) ->
  (forall m, m ∈ messages -> displayable m = true) ->
  exists st1 w1 st2 w2,
    download_batch net1 messages folder_path size1 w = Return (st1, w1)
    /\ download_batch net2 messages folder_path size2 w1 = Return (st2, w2)
    /\ requests w2
       = requests w1
         ++ omap (fun m => if decide (outcome_of net1 (ledger w) m = RTrue)
                           then None else request_of (ledger w) m) messages.
Proof.
  intros Hpos1 Hpos2 Hnodup Hshow.
  destruct (run_track isoformat joinpath renders is_dir net1 folder_path
              messages size1 w Hpos1 Hnodup Hshow)
    as (st1 & w1 & Hrun1 & Hl1 & _).
  destruct (run_track isoformat joinpath renders is_dir net2 folder_path
              messages size2 w1 Hpos2 Hnodup Hshow)
    as (st2 & w2 & Hrun2 & _ & Hr2 & _).
  exists st1, w1, st2, w2. split; [exact Hrun1|]. split; [exact Hrun2|].
  rewrite Hr2. f_equal. apply omap_ext_elem. intros m Hm.
  pose proof (recorded_membership net1 messages (ledger w) m Hnodup Hm) as Hrec.
  rewrite <- Hl1 in Hrec. unfold Spec.request_of.
  destruct (decide (outcome_of net1 (ledger w) m = RTrue)) as [Htrue|Hfalse].
  - rewrite bool_decide_eq_true_2; [done | by apply Hrec].
  - rewrite (bool_decide_eq_false_2 (AStr (get_file_id m) ∈ ledger w1))
      by (by rewrite Hrec).
    rewrite (bool_decide_eq_false_2 (AStr (get_file_id m) ∈ ledger w)); [done|].
    intros Hin. apply Hfalse. unfold outcome_of.
    by rewrite bool_decide_eq_true_2.
Qed.

End ResumeCoverage.

Section ResumeExamples.

Import Samples.

Lemma second_run_retries_only_the_failed_witness :
  (0 < 2)%Z /\ (0 < 5)%Z
  /\ NoDup (get_file_id <$> three_photos)
  /\ (forall m, m ∈ three_photos -> displayable renders m = true)
  /\ exists st1 w1 st2 w2,
       batch_run second_breaks three_photos 2 fresh_world = Return (st1, w1)
       /\ batch_run all_complete three_photos 5 w1 = Return (st2, w2)
       /\ requests w2 = requests w1 ++ ["downloads/photo_2.jpg"].
Proof.
  split; [reflexivity|]. split; [reflexivity|].
  split; [exact three_photos_distinct|].
  split; [exact three_photos_displayable|].
  exact (second_run_retries_only_the_failed isoformat joinpath renders is_dir
           "downloads" second_breaks all_complete three_photos 2 5 fresh_world
           eq_refl eq_refl three_photos_distinct three_photos_displayable).
Defined.

End ResumeExamples.
